(** * The darkwallet gateway client: correlation table and message router

    A shallow embedding of [src/client/gateway.js].  The client owns one
    object, [handler_map], that maps request ids and subscription topics to
    the function that must receive the matching inbound frame.  Every method
    of [GatewayClient] is a computation over the client's state that either
    returns or throws, exactly as the JavaScript does. *)

From Stdlib Require Import ZArith QArith Qround String Ascii List Lia.
From stdpp Require Import base option strings pretty gmap.

Local Set Warnings "-register-all".
Local Open Scope Z_scope.

(** ** JavaScript data *)

(** The values that travel through the client as data: what [JSON.parse]
    builds, what the caller passes as command parameters, and [undefined]
    (the value of a missing property).  Numbers are the integers that
    JavaScript holds exactly and prints digit by digit, those below 2^53 in
    absolute value; fractional and larger numbers are outside the model. *)
Inductive data : Type :=
| Undefined
| Null
| Bool (b : bool)
| Num (n : Z)
| Str (s : string)
| Arr (items : list data)
| Obj (props : list (string * data)).

(** The functions every object inherits from [Object.prototype]. *)
Inductive builtin : Type :=
| Object_constructor
| hasOwnProperty
| isPrototypeOf
| propertyIsEnumerable
| toString
| toLocaleString
| valueOf
| defineGetter
| defineSetter
| lookupGetter
| lookupSetter.

(** What a caller can hand to the client where a callback is expected: any
    datum, a function of the caller's, a built-in function, or the object
    [Object.prototype] itself.  A function of the caller's is opaque: the
    model knows its name and whether it throws, records that it was entered
    and with which arguments, and takes it not to call back into the client
    while it runs. *)
Inductive value : Type :=
| Data (d : data)
| UserFn (name : string) (raises : bool)
| Builtin (b : builtin)
| Object_prototype.

(** What a slot of [handler_map] holds: a value stored as the caller gave
    it, or one of the two closures the client builds.
    - [fetch_adapter handle_fetch] is
      [function(response) { handle_fetch(response["error"], response["result"][0]); }],
      the closure of every [fetch_*] method;
    - [subscribe_adapter address handle_fetch handle_update] is the closure
      of [subscribe] and of [renew], which goes on to store [handle_update]
      under ["update." + address]. *)
Inductive handler : Type :=
| Given (v : value)
| fetch_adapter (handle_fetch : value)
| subscribe_adapter (address : data) (handle_fetch handle_update : value).

(** ** Strings *)

Definition dquote : ascii := "034"%char.
Definition quoted (s : string) : string :=
  String dquote (s +:+ String dquote EmptyString).

(** [join sep l] is [Array.prototype.join] on strings already converted. *)
Fixpoint join (sep : string) (l : list string) : string :=
  match l with
  | [] => EmptyString
  | [x] => x
  | x :: rest => x +:+ sep +:+ join sep rest
  end.

(** The string form of a datum: what its conversion to a string gives when
    the conversion succeeds.  Whether it succeeds is [converts], below; the
    conversion itself, which can throw, is [ToString]. *)
Fixpoint to_string (d : data) : string :=
  match d with
  | Undefined => "undefined"
  | Null => "null"
  | Bool true => "true"
  | Bool false => "false"
  | Num n => pretty n
  | Str s => s
  | Arr items =>
      join "," (List.map (fun x => match x with
                                   | Undefined | Null => EmptyString
                                   | _ => to_string x
                                   end) items)
  | Obj _ => "[object Object]"
  end.

(** The answer of [x == s] for a datum [x] and a string [s], when the
    comparison does not throw: strings compare as strings, objects and arrays
    through their string form, and no number, boolean, [null] or [undefined]
    equals a string that is not a numeral.  The comparison itself, which
    can throw, is [loose_eq]. *)
Definition loosely_equals (x : data) (s : string) : bool :=
  match x with
  | Str _ | Arr _ | Obj _ => String.eqb (to_string x) s
  | Undefined | Null | Bool _ | Num _ => false
  end.

(** Truthiness, the test of [if (handle_update)] and of
    [!this.handler_map[id]]. *)
Definition truthy_data (d : data) : bool :=
  match d with
  | Undefined | Null => false
  | Bool b => b
  | Num n => negb (n =? 0)
  | Str s => negb (String.eqb s EmptyString)
  | Arr _ | Obj _ => true
  end.

Definition truthy (v : value) : bool :=
  match v with
  | Data d => truthy_data d
  | UserFn _ _ | Builtin _ | Object_prototype => true
  end.

Definition truthy_handler (h : handler) : bool :=
  match h with
  | Given v => truthy v
  | fetch_adapter _ | subscribe_adapter _ _ _ => true
  end.

(** [typeof func === 'function'] *)
Definition is_function (h : handler) : bool :=
  match h with
  | Given (UserFn _ _) | Given (Builtin _) => true
  | Given (Data _) | Given Object_prototype => false
  | fetch_adapter _ | subscribe_adapter _ _ _ => true
  end.

(** ** JSON.stringify *)

Definition hex_digit (n : N) : ascii :=
  match n with
  | 10 => "a" | 11 => "b" | 12 => "c" | 13 => "d" | 14 => "e" | 15 => "f"
  | _ => pretty_N_char n
  end%N%char.

Definition escape_char (c : ascii) : string :=
  let n := N_of_ascii c in
  if (n =? 34)%N then String "\" (String dquote EmptyString)
  else if (n =? 92)%N then "\\"
  else if (n =? 8)%N then "\b"
  else if (n =? 9)%N then "\t"
  else if (n =? 10)%N then "\n"
  else if (n =? 12)%N then "\f"
  else if (n =? 13)%N then "\r"
  else if (n <? 32)%N then
    "\u00" +:+ String (hex_digit (n / 16)) (String (hex_digit (n mod 16)) EmptyString)
  else String c EmptyString.

Fixpoint escape (s : string) : string :=
  match s with
  | EmptyString => EmptyString
  | String c rest => escape_char c +:+ escape rest
  end.

Definition json_quote (s : string) : string := quoted (escape s).

(** [stringify d] is [None] where [JSON.stringify] gives [undefined]. An
    [undefined] array element is written [null]; a property whose value is
    [undefined] is left out. *)
Fixpoint stringify (d : data) : option string :=
  match d with
  | Undefined => None
  | Null => Some "null"
  | Bool true => Some "true"
  | Bool false => Some "false"
  | Num n => Some (pretty n)
  | Str s => Some (json_quote s)
  | Arr items =>
      Some ("[" +:+ join "," (List.map (fun x => default "null" (stringify x)) items)
                +:+ "]")
  | Obj props =>
      Some ("{" +:+ join "," (omap (fun kv =>
                                    match stringify (snd kv) with
                                    | Some v => Some (json_quote (fst kv) +:+ ":" +:+ v)
                                    | None => None
                                    end) props)
                +:+ "}")
  end.

(** The string that [websocket.send(JSON.stringify(x))] is given. *)
Definition JSON_stringify (d : data) : string :=
  default "undefined" (stringify d).

(** ** Reading properties *)

(** What a JavaScript statement can throw here. *)
Inductive exn : Type :=
| SyntaxError                  (* [JSON.parse] on text that is not JSON *)
| TypeError                    (* a property of [null] or [undefined]; a call of a
                                  non-function; a value without a string form *)
| InvalidStateError            (* [WebSocket.send] while still connecting *)
| Parameter_is_not_a_function  (* the string thrown by [_check_function] *)
| ErrorEvent                   (* the event that [on_error] throws back *)
| Raised (by_fn : string).     (* thrown by the caller's function [by_fn] *)

Inductive outcome (A : Type) : Type :=
| Returned (a : A)
| Thrown (e : exn).
Arguments Returned {A} a.
Arguments Thrown {A} e.

Fixpoint assoc (k : string) (props : list (string * data)) : option data :=
  match props with
  | [] => None
  | (k', v) :: rest => if String.eqb k k' then Some v else assoc k rest
  end.

(** [x[k]] for the property names the client reads by name -- [id], [name],
    [address], [error], [result] -- none of which a built-in prototype
    defines: only an object can have them, and reading them from [null] or
    [undefined] throws. *)
Definition get_named (x : data) (k : string) : outcome data :=
  match x with
  | Undefined | Null => Thrown TypeError
  | Obj props => Returned (default Undefined (assoc k props))
  | Bool _ | Num _ | Str _ | Arr _ => Returned Undefined
  end.

(** [x[i]] for an index [i], the [[0]] of [response["result"][0]]. *)
Definition get_index (x : data) (i : nat) : outcome data :=
  match x with
  | Undefined | Null => Thrown TypeError
  | Arr items => Returned (nth i items Undefined)
  | Str s => Returned (match String.get i s with
                       | Some c => Str (String c EmptyString)
                       | None => Undefined
                       end)
  | Obj props => Returned (default Undefined (assoc (pretty i) props))
  | Bool _ | Num _ => Returned Undefined
  end.

(** ** Conversions that can throw *)

(** Whether a datum has a string form.  Converting an object to a primitive
    calls its [toString] and its [valueOf], in the order the context asks
    for.  A plain object inherits both; [valueOf] returns the object itself,
    so it is [toString] that gives the string.  A property named [toString]
    of the object's own holds data, not a function, and hides the inherited
    method: no method gives a primitive and the conversion throws a
    [TypeError].  An array is joined from the string forms of its elements,
    [null] and [undefined] counting as empty, so it converts when they all
    do. *)
Fixpoint converts (d : data) : bool :=
  match d with
  | Obj props =>
      match assoc "toString" props with
      | Some _ => false
      | None => true
      end
  | Arr items =>
      forallb (fun x => match x with
                        | Undefined | Null => true
                        | _ => converts x
                        end) items
  | Undefined | Null | Bool _ | Num _ | Str _ => true
  end.

(** [ToString], as applied to the property key in [handler_map[id]] and to
    [address] in ["update." + address]. *)
Definition ToString (d : data) : outcome string :=
  if converts d then Returned (to_string d) else Thrown TypeError.

(** [prefix + d] for a string [prefix] *)
Definition plus (prefix : string) (d : data) : outcome string :=
  match ToString d with
  | Returned s => Returned (prefix +:+ s)
  | Thrown e => Thrown e
  end.

(** [x == s] for a string [s]: an object or an array is converted first. *)
Definition loose_eq (x : data) (s : string) : outcome bool :=
  if converts x then Returned (loosely_equals x s) else Thrown TypeError.

(** ** The client *)

(** [WebSocket.readyState] *)
Inductive ready_state : Type := CONNECTING | OPEN | CLOSING | CLOSED.

(** [evt.data] of a message event, given by what [JSON.parse] makes of it. *)
Inductive payload : Type :=
| Unparseable
| Parses (response : data).

(** What the client does that its environment can see, in the order it
    happens; [Registered] marks each assignment to a slot of [handler_map]. *)
Inductive event : Type :=
| FrameObserved (d : payload)                  (* the [on_message] hook ran *)
| ConsoleLog (msg : string)                    (* [console.log(msg)] *)
| WsSend (msg : string)                        (* [websocket.send(msg)] returned *)
| Registered (key : string) (h : handler)      (* [handler_map[key] = h] *)
| Invoked (f : value) (args : list data).      (* the function [f] was entered *)

Record client : Type := mkClient {
  handler_map : gmap string handler;
  readyState : ready_state;            (* of [this.websocket] *)
  handle_connect : value;              (* held by [this.websocket.onopen] *)
  trace : list event
}.

Definition with_trace (st : client) (t : list event) : client :=
  {| handler_map := handler_map st; readyState := readyState st;
     handle_connect := handle_connect st; trace := t |}.
Definition with_handler_map (st : client) (m : gmap string handler) : client :=
  {| handler_map := m; readyState := readyState st;
     handle_connect := handle_connect st; trace := trace st |}.
Definition with_readyState (st : client) (r : ready_state) : client :=
  {| handler_map := handler_map st; readyState := r;
     handle_connect := handle_connect st; trace := trace st |}.

(** A method body: from a state to an outcome and the state it leaves. *)
Definition M (A : Type) : Type := client -> outcome A * client.

Definition ret {A} (a : A) : M A := fun st => (Returned a, st).
Definition throw {A} (e : exn) : M A := fun st => (Thrown e, st).
Definition bind {A B} (m : M A) (k : A -> M B) : M B :=
  fun st => match m st with
            | (Returned a, st') => k a st'
            | (Thrown e, st') => (Thrown e, st')
            end.
Definition lift {A} (o : outcome A) : M A := fun st => (o, st).

Declare Scope js_scope.
Delimit Scope js_scope with js.
Notation "'var' x ':=' m ';' k" := (bind m (fun x => k))
  (at level 10, x name, m at level 99, k at level 200) : js_scope.
Notation "m ';;' k" := (bind m (fun _ => k))
  (at level 100, k at level 200, right associativity) : js_scope.
Local Open Scope js_scope.

Definition log (e : event) : M unit :=
  fun st => (Returned tt, with_trace st (trace st ++ [e])).

(** [this.handler_map[key] = h] *)
Definition set_handler (key : string) (h : handler) : M unit :=
  fun st => (Returned tt,
             with_trace (with_handler_map st (<[key := h]> (handler_map st)))
                        (trace st ++ [Registered key h])).

(** [handler_map] is created by [{}], so a key it does not have itself is
    looked up in [Object.prototype]. *)
Definition Object_prototype_get (key : string) : option value :=
  if String.eqb key "constructor" then Some (Builtin Object_constructor)
  else if String.eqb key "hasOwnProperty" then Some (Builtin hasOwnProperty)
  else if String.eqb key "isPrototypeOf" then Some (Builtin isPrototypeOf)
  else if String.eqb key "propertyIsEnumerable" then Some (Builtin propertyIsEnumerable)
  else if String.eqb key "toString" then Some (Builtin toString)
  else if String.eqb key "toLocaleString" then Some (Builtin toLocaleString)
  else if String.eqb key "valueOf" then Some (Builtin valueOf)
  else if String.eqb key "__defineGetter__" then Some (Builtin defineGetter)
  else if String.eqb key "__defineSetter__" then Some (Builtin defineSetter)
  else if String.eqb key "__lookupGetter__" then Some (Builtin lookupGetter)
  else if String.eqb key "__lookupSetter__" then Some (Builtin lookupSetter)
  else if String.eqb key "__proto__" then Some Object_prototype
  else None.

(** [this.handler_map[key]], [None] for [undefined]. *)
Definition get_handler (key : string) : M (option handler) :=
  fun st => (Returned (match handler_map st !! key with
                       | Some h => Some h
                       | None => Given <$> Object_prototype_get key
                       end), st).

(** [this.websocket.send(message)]: throws while the socket is connecting;
    once open it takes the message, and after closing it drops it silently. *)
Definition websocket_send (message : string) : M unit :=
  fun st => match readyState st with
            | CONNECTING => (Thrown InvalidStateError, st)
            | OPEN | CLOSING | CLOSED => log (WsSend message) st
            end.

Definition console_log (msg : string) : M unit := log (ConsoleLog msg).

(** ** Calling functions *)

Definition is_object (d : data) : bool :=
  match d with
  | Arr _ | Obj _ => true
  | _ => false
  end.

(** A built-in of [Object.prototype] called as a plain function, so with
    [this] undefined: [Object] converts its argument and [toString] names the
    undefined receiver; every other needs a receiver and throws, except that
    [isPrototypeOf] first answers [false] for an argument that is no object. *)
Definition call_builtin (b : builtin) (args : list data) : outcome data :=
  match b with
  | Object_constructor =>
      Returned (match nth 0 args Undefined with
                | Undefined | Null => Obj []
                | d => d
                end)
  | toString => Returned (Str "[object Undefined]")
  | isPrototypeOf =>
      if is_object (nth 0 args Undefined) then Thrown TypeError
      else Returned (Bool false)
  | hasOwnProperty | propertyIsEnumerable | toLocaleString | valueOf
  | defineGetter | defineSetter | lookupGetter | lookupSetter => Thrown TypeError
  end.

(** [f(args)] for a value [f] that the caller supplied. *)
Definition call_value (f : value) (args : list data) : M data :=
  match f with
  | UserFn name raises =>
      log (Invoked f args) ;;
      if raises then throw (Raised name) else ret Undefined
  | Builtin b =>
      log (Invoked f args) ;;
      lift (call_builtin b args)
  | Data _ | Object_prototype => throw TypeError
  end.

(** [handle_fetch(response["error"], response["result"][0])]: the arguments
    are read before the call is attempted. *)
Definition forward (handle_fetch : value) (response : data) : M data :=
  var error := lift (get_named response "error") ;
  var result := lift (get_named response "result") ;
  var result0 := lift (get_index result 0) ;
  call_value handle_fetch [error; result0].

(** [handler(response)] for what a slot of [handler_map] holds. *)
Definition call_handler (h : handler) (response : data) : M data :=
  match h with
  | Given f => call_value f [response]
  | fetch_adapter handle_fetch =>
      forward handle_fetch response ;;
      ret Undefined
  | subscribe_adapter address handle_fetch handle_update =>
      forward handle_fetch response ;;
      (if truthy handle_update
       then var topic := lift (plus "update." address) ;
            set_handler topic (Given handle_update)
       else ret tt) ;;
      ret Undefined
  end.

(** ** The methods of [GatewayClient] *)

(** [Math.floor(Math.random() * 4294967296)], for the number in [0, 1) that
    [Math.random()] returned. *)
Definition _random_integer (Math_random : Q) : Z :=
  Qfloor (Math_random * 4294967296).

Definition _check_function (func : handler) : M unit :=
  if is_function func then ret tt else throw Parameter_is_not_a_function.

Definition make_request (Math_random : Q) (command params : data)
    (handler : handler) : M unit :=
  _check_function handler ;;
  let id := _random_integer Math_random in
  let request := Obj [("id", Num id); ("command", command); ("params", params)] in
  let message := JSON_stringify request in
  websocket_send message ;;
  set_handler (to_string (Num id)) handler.

Definition fetch_last_height (Math_random : Q) (handle_fetch : value) : M unit :=
  _check_function (Given handle_fetch) ;;
  make_request Math_random (Str "fetch_last_height") (Arr [])
    (fetch_adapter handle_fetch).

Definition fetch_transaction (Math_random : Q) (tx_hash : data)
    (handle_fetch : value) : M unit :=
  _check_function (Given handle_fetch) ;;
  make_request Math_random (Str "fetch_transaction") (Arr [tx_hash])
    (fetch_adapter handle_fetch).

Definition fetch_history (Math_random : Q) (address : data)
    (handle_fetch : value) : M unit :=
  _check_function (Given handle_fetch) ;;
  make_request Math_random (Str "fetch_history") (Arr [address])
    (fetch_adapter handle_fetch).

Definition subscribe (Math_random : Q) (address : data)
    (handle_fetch handle_update : value) : M unit :=
  make_request Math_random (Str "subscribe_address") (Arr [address])
    (subscribe_adapter address handle_fetch handle_update).

Definition fetch_block_header (Math_random : Q) (index : data)
    (handle_fetch : value) : M unit :=
  _check_function (Given handle_fetch) ;;
  make_request Math_random (Str "fetch_block_header") (Arr [index])
    (fetch_adapter handle_fetch).

Definition fetch_block_transaction_hashes (Math_random : Q) (index : data)
    (handle_fetch : value) : M unit :=
  _check_function (Given handle_fetch) ;;
  make_request Math_random (Str "fetch_block_transaction_hashes") (Arr [index])
    (fetch_adapter handle_fetch).

Definition fetch_spend (Math_random : Q) (outpoint : data)
    (handle_fetch : value) : M unit :=
  _check_function (Given handle_fetch) ;;
  make_request Math_random (Str "fetch_spend") (Arr [outpoint])
    (fetch_adapter handle_fetch).

Definition renew (Math_random : Q) (address : data)
    (handle_fetch handle_update : value) : M unit :=
  make_request Math_random (Str "renew_address") (Arr [address])
    (subscribe_adapter address handle_fetch handle_update).

Definition on_close : M unit := ret tt.

Definition on_error : M unit := throw ErrorEvent.

(** The hook does nothing of its own; the model records that it ran. *)
Definition on_message (evt_data : payload) : M unit :=
  log (FrameObserved evt_data).

Definition JSON_parse (evt_data : payload) : M data :=
  match evt_data with
  | Unparseable => throw SyntaxError
  | Parses response => ret response
  end.

Definition _on_message (evt_data : payload) : M unit :=
  on_message evt_data ;;
  var response := JSON_parse evt_data ;
  var id := lift (get_named response "id") ;
  var name := lift (get_named response "name") ;
  var is_update := lift (loose_eq name "update") ;
  var id := (if is_update
             then var address := lift (get_named response "address") ;
                  var topic := lift (plus "update." address) ;
                  ret (Str topic)
             else ret id) ;
  var key := lift (ToString id) ;
  var found := get_handler key ;
  match found with
  | Some handler =>
      if truthy_handler handler
      then call_handler handler response ;; ret tt
      else console_log "Handler not found"
  | None => console_log "Handler not found"
  end.

(** [new GatewayClient(connect_uri, handle_connect)] *)
Definition GatewayClient (connect_uri : string) (handle_connect : value) : client :=
  {| handler_map := ∅; readyState := CONNECTING;
     handle_connect := handle_connect; trace := [] |}.

Definition set_readyState (r : ready_state) : M unit :=
  fun st => (Returned tt, with_readyState st r).

(** [this.websocket.onopen]: the socket is open when the event is delivered. *)
Definition websocket_onopen : M unit :=
  set_readyState OPEN ;;
  fun st => (call_value (handle_connect st) [] ;; ret tt) st.

(** [this.websocket.onclose], after the socket has closed. *)
Definition websocket_onclose : M unit :=
  set_readyState CLOSED ;; on_close.

(** What the event loop can run next, each to completion: a call of a method
    by the application, or one of the four socket events. *)
Inductive input : Type :=
| call_make_request (Math_random : Q) (command params : data) (handler : value)
| call_fetch_last_height (Math_random : Q) (handle_fetch : value)
| call_fetch_transaction (Math_random : Q) (tx_hash : data) (handle_fetch : value)
| call_fetch_history (Math_random : Q) (address : data) (handle_fetch : value)
| call_subscribe (Math_random : Q) (address : data) (handle_fetch handle_update : value)
| call_fetch_block_header (Math_random : Q) (index : data) (handle_fetch : value)
| call_fetch_block_transaction_hashes (Math_random : Q) (index : data) (handle_fetch : value)
| call_fetch_spend (Math_random : Q) (outpoint : data) (handle_fetch : value)
| call_renew (Math_random : Q) (address : data) (handle_fetch handle_update : value)
| onopen
| onclose
| onerror
| onmessage (evt_data : payload).

Definition run (i : input) : M unit :=
  match i with
  | call_make_request u command params handler =>
      make_request u command params (Given handler)
  | call_fetch_last_height u hf => fetch_last_height u hf
  | call_fetch_transaction u x hf => fetch_transaction u x hf
  | call_fetch_history u x hf => fetch_history u x hf
  | call_subscribe u a hf hu => subscribe u a hf hu
  | call_fetch_block_header u x hf => fetch_block_header u x hf
  | call_fetch_block_transaction_hashes u x hf => fetch_block_transaction_hashes u x hf
  | call_fetch_spend u x hf => fetch_spend u x hf
  | call_renew u a hf hu => renew u a hf hu
  | onopen => websocket_onopen
  | onclose => websocket_onclose
  | onerror => on_error
  | onmessage evt_data => _on_message evt_data
  end.

(** [Math.random()] returns a number in [0, 1). *)
Definition in_unit_interval (u : Q) : Prop := (0 <= u)%Q /\ (u < 1)%Q.

Definition well_formed (i : input) : Prop :=
  match i with
  | call_make_request u _ _ _ | call_fetch_last_height u _
  | call_fetch_transaction u _ _ | call_fetch_history u _ _
  | call_subscribe u _ _ _ | call_fetch_block_header u _ _
  | call_fetch_block_transaction_hashes u _ _ | call_fetch_spend u _ _
  | call_renew u _ _ _ => in_unit_interval u
  | onopen | onclose | onerror | onmessage _ => True
  end.

(** The state an input leaves, whether its handler returned or threw. *)
Definition step (st : client) (i : input) : client := snd (run i st).

Inductive reachable : client -> Prop :=
| reachable_new connect_uri handle_connect :
    reachable (GatewayClient connect_uri handle_connect)
| reachable_step st i : reachable st -> well_formed i -> reachable (step st i).

(** * The vocabulary of the properties *)

(** The keys [make_request] writes: the decimal numerals of the integers
    that [_random_integer] can return. *)
Definition request_key (k : string) : Prop :=
  exists n : Z, 0 <= n < 4294967296 /\ k = pretty n.

(** The keys the subscription closures write. *)
Definition topic_key (k : string) : Prop :=
  exists rest : string, k = "update." +:+ rest.

Definition first_char (s : string) : option ascii :=
  match s with
  | EmptyString => None
  | String c _ => Some c
  end.

Definition numeral_start (c : ascii) : bool :=
  let n := N_of_ascii c in
  ((48 <=? n) && (n <=? 57) || (n =? 45))%N.

(** [o] and then [k], for two steps that can throw. *)
Definition and_then {A B} (o : outcome A) (k : A -> outcome B) : outcome B :=
  match o with
  | Returned a => k a
  | Thrown e => Thrown e
  end.

(** The key under which [_on_message] looks the frame up: the topic key of
    an update, the frame's [id] as a property name otherwise.  Reading the
    fields throws when the frame is [null]; the comparison of the name and
    the conversions of the address and of the id throw when what they
    convert has no string form. *)
Definition correlation_key (response : data) : outcome string :=
  and_then (get_named response "id") (fun id =>
  and_then (get_named response "name") (fun name =>
  and_then (loose_eq name "update") (fun is_update =>
  if is_update
  then and_then (get_named response "address") (fun address =>
       plus "update." address)
  else ToString id))).

(** [response[k]] where reading it does not throw. *)
Definition field (response : data) (k : string) : data :=
  match get_named response k with
  | Returned v => v
  | Thrown _ => Undefined
  end.

(** [this.handler_map[key]] in state [st]. *)
Definition slot (st : client) (key : string) : option handler :=
  match handler_map st !! key with
  | Some h => Some h
  | None => Given <$> Object_prototype_get key
  end.

(** The state once the [on_message] hook has run on a frame. *)
Definition observed (st : client) (d : payload) : client :=
  with_trace st (trace st ++ [FrameObserved d]).

Definition is_registration (e : event) : bool :=
  match e with
  | Registered _ _ => true
  | _ => false
  end.

(** [m] keeps [I], however it ends. *)
Definition preserves {A} (I : client -> Prop) (m : M A) : Prop :=
  forall st, I st -> I (snd (m st)).

(** The only registration a slot's function makes is the update handler of
    a subscription closure; [registration_ok ok h] says that [ok] admits what
    [h] registers. *)
Definition registration_ok (ok : string -> handler -> Prop) (h : handler) : Prop :=
  match h with
  | subscribe_adapter address _ handle_update =>
      truthy handle_update = true ->
      ok ("update." +:+ to_string address) (Given handle_update)
  | _ => True
  end.


(** What each kind of key can hold: a request key holds a function (it
    passed [_check_function]); a topic key holds a value the caller gave as
    update handler, which passed [if (handle_update)]. *)
Definition slot_ok (key : string) (h : handler) : Prop :=
  (request_key key /\ is_function h = true) \/
  (topic_key key /\ exists v, h = Given v /\ truthy v = true).

(** [typeof f === 'function'] for a value of the caller's. *)
Definition callable (f : value) : bool := is_function (Given f).




(** A run of inputs, each to completion, and the runs in which no
    subscription to [topic] is acknowledged. *)
Definition steps (st : client) (inputs : list input) : client :=
  foldl step st inputs.


(** A client whose socket has opened. *)
Definition connected : client :=
  step (GatewayClient "ws://gateway" (UserFn "handle_connect" false)) onopen.

(** The value of [Math.random()] that makes [_random_integer] return [n]. *)
Definition draw (n : Z) : Q := n # 4294967296.

(** The text of the request [{"id": i, "command": c, "params": []}]. *)
Definition request_text (i : Z) (command : string) : string :=
  "{" +:+ quoted "id" +:+ ":" +:+ pretty i +:+ ","
      +:+ quoted "command" +:+ ":" +:+ quoted command +:+ ","
      +:+ quoted "params" +:+ ":[]}".


(** The body shared by the [fetch_*] methods: the check of the callback,
    then the request with the closure that unpacks the response. *)
Definition fetch_body (u : Q) (command : string) (params : list data)
    (handle_fetch : value) : M unit :=
  _check_function (Given handle_fetch) ;;
  make_request u (Str command) (Arr params) (fetch_adapter handle_fetch).

(** The six one-shot commands, each with the name it sends. *)
Definition fetch_methods (u : Q) (x : data) (handle_fetch : value)
    : list (string * list data * M unit) :=
  [("fetch_last_height", [], fetch_last_height u handle_fetch);
   ("fetch_transaction", [x], fetch_transaction u x handle_fetch);
   ("fetch_history", [x], fetch_history u x handle_fetch);
   ("fetch_block_header", [x], fetch_block_header u x handle_fetch);
   ("fetch_block_transaction_hashes", [x],
    fetch_block_transaction_hashes u x handle_fetch);
   ("fetch_spend", [x], fetch_spend u x handle_fetch)].

(** The inputs that are calls of a method by the application. *)
Definition is_call (i : input) : bool :=
  match i with
  | onopen | onclose | onerror | onmessage _ => false
  | _ => true
  end.

(** A one-shot command from request to response: the method body [m]
    returns, having sent the request [command] with [params] under the id it
    drew and registered its closure under that id; the response to the id
    then calls [handle_fetch] with the error and the first result, and leaves
    the table as it is. *)
Definition round_trip (m : M unit) (command : string) (params : list data)
    (u : Q) (handle_fetch : value) (st : client) : Prop :=
  let i := _random_integer u in
  exists st1,
    m st = (Returned tt, st1)
    /\ trace st1
       = trace st ++ [WsSend (JSON_stringify (Obj [("id", Num i);
                                                   ("command", Str command);
                                                   ("params", Arr params)]));
                      Registered (to_string (Num i)) (fetch_adapter handle_fetch)]
    /\ forall e v rest,
         let frame := Parses (Obj [("id", Num i); ("error", e);
                                   ("result", Arr (v :: rest))]) in
         trace (snd (_on_message frame st1))
         = trace st1 ++ [FrameObserved frame; Invoked handle_fetch [e; v]]
         /\ handler_map (snd (_on_message frame st1)) = handler_map st1.

(** A subscription to a string [address] from call to update, for the method
    body [m] of [subscribe] or of [renew]: the call returns with its closure
    registered under the id it drew; the acknowledgement with that id calls
    [handle_fetch] and then binds the topic key to [handle_update]; from then
    on an update whose address is the string calls [handle_update] with the
    whole frame. *)
Definition subscription (m : M unit) (u : Q) (address : string)
    (handle_fetch handle_update : value) (st : client) : Prop :=
  let i := _random_integer u in
  let topic := "update." +:+ address in
  exists st1,
    m st = (Returned tt, st1)
    /\ handler_map st1
       = <[to_string (Num i) := subscribe_adapter (Str address) handle_fetch
                                                  handle_update]>
           (handler_map st)
    /\ forall e v rest,
         let ack := Parses (Obj [("id", Num i); ("error", e);
                                 ("result", Arr (v :: rest))]) in
         let st2 := snd (_on_message ack st1) in
         trace st2 = trace st1 ++ [FrameObserved ack; Invoked handle_fetch [e; v];
                                   Registered topic (Given handle_update)]
         /\ handler_map st2 = <[topic := Given handle_update]> (handler_map st1)
         /\ forall props name,
              assoc "name" props = Some name ->
              loose_eq name "update" = Returned true ->
              assoc "address" props = Some (Str address) ->
              trace (snd (_on_message (Parses (Obj props)) st2))
              = trace st2 ++ [FrameObserved (Parses (Obj props));
                              Invoked handle_update [Obj props]].


(** The events that hand a frame to the transport, and the registrations
    under a key that is not a topic key. *)
Definition is_send (e : event) : bool :=
  match e with
  | WsSend _ => true
  | _ => false
  end.

Definition is_request_registration (e : event) : bool :=
  match e with
  | Registered key _ => negb (String.prefix "update." key)
  | _ => false
  end.

Definition count (p : event -> bool) (t : list event) : nat :=
  length (List.filter p t).


(** * Properties *)

(** ** Keys *)

Lemma pretty_N_char_numeral (x : N) : numeral_start (pretty_N_char x) = true.
Proof.
  unfold pretty_N_char. by repeat case_match.
Qed.

Lemma pretty_N_go_first (x : N) : forall s,
  (exists c, first_char s = Some c /\ numeral_start c = true) ->
  exists c, first_char (pretty_N_go x s) = Some c /\ numeral_start c = true.
Proof.
  induction (N.lt_wf_0 x) as [x _ IH]; intros s Hs.
  destruct (decide (x = 0)%N) as [->|Hx].
  - by rewrite pretty_N_go_0.
  - rewrite pretty_N_go_step by lia.
    apply IH.
    + apply N.div_lt; lia.
    + eexists; split; [reflexivity|apply pretty_N_char_numeral].
Qed.

Lemma pretty_positive_first (p : positive) :
  exists c, first_char (pretty p) = Some c /\ numeral_start c = true.
Proof.
  unfold pretty, pretty_positive, pretty, pretty_N.
  destruct (decide (N.pos p = 0)%N) as [|_]; [done|].
  rewrite pretty_N_go_step by lia.
  apply pretty_N_go_first.
  eexists; split; [reflexivity|apply pretty_N_char_numeral].
Qed.

(** A decimal numeral starts with a digit or a minus sign. *)
Lemma pretty_Z_first (n : Z) :
  exists c, first_char (pretty n) = Some c /\ numeral_start c = true.
Proof.
  destruct n as [|p|p].
  - by exists "0"%char.
  - apply pretty_positive_first.
  - by exists "-"%char.
Qed.

Lemma topic_key_first (k : string) : topic_key k -> first_char k = Some "u"%char.
Proof. by intros [rest ->]. Qed.

Lemma numeral_not_topic_key (n : Z) : ~ topic_key (pretty n).
Proof.
  intros Ht. apply topic_key_first in Ht.
  destruct (pretty_Z_first n) as (c & Hc & Hnum).
  rewrite Ht in Hc. by injection Hc as <-.
Qed.

Lemma request_key_not_topic_key (k : string) : request_key k -> ~ topic_key k.
Proof. intros (n & _ & ->). apply numeral_not_topic_key. Qed.



(** [Math.random()] is in [0, 1), so the id is in [0, 2^32). *)
Lemma _random_integer_range (u : Q) :
  in_unit_interval u -> 0 <= _random_integer u < 4294967296.
Proof.
  intros [Hlo Hhi]. destruct u as [n d].
  unfold Qle, Qlt in Hlo, Hhi. simpl in Hlo, Hhi.
  unfold _random_integer, Qfloor, Qmult. simpl Qnum. simpl Qden.
  rewrite Pos.mul_1_r. split.
  - apply Z.div_pos; lia.
  - apply Z.div_lt_upper_bound; lia.
Qed.

Lemma request_key_random (u : Q) :
  in_unit_interval u -> request_key (to_string (Num (_random_integer u))).
Proof. intros Hu. exists (_random_integer u). by split; [apply _random_integer_range|]. Qed.

(** ** The router, case by case *)

Lemma _on_message_unparseable st :
  _on_message Unparseable st = (Thrown SyntaxError, observed st Unparseable).
Proof. reflexivity. Qed.

Lemma ToString_thrown d e : ToString d = Thrown e -> e = TypeError.
Proof. unfold ToString. destruct (converts d); congruence. Qed.

Lemma plus_thrown prefix d e : plus prefix d = Thrown e -> e = TypeError.
Proof. unfold plus, ToString. destruct (converts d); congruence. Qed.

Lemma loose_eq_thrown x s e : loose_eq x s = Thrown e -> e = TypeError.
Proof. unfold loose_eq. destruct (converts x); congruence. Qed.

Lemma correlation_key_thrown response e :
  correlation_key response = Thrown e -> e = TypeError.
Proof.
  unfold correlation_key, and_then.
  destruct (get_named response "id") as [id|e1] eqn:Hid;
    [|intros [= <-]; destruct response; simpl in *; congruence].
  destruct (get_named response "name") as [name|e1] eqn:Hname;
    [|intros [= <-]; destruct response; simpl in *; congruence].
  destruct (loose_eq name "update") as [[|]|e1] eqn:Heq.
  - destruct (get_named response "address") as [address|e1] eqn:Haddr;
      [|intros [= <-]; destruct response; simpl in *; congruence].
    apply plus_thrown.
  - apply ToString_thrown.
  - intros [= <-]. by apply loose_eq_thrown in Heq.
Qed.

(** The router is the hook, the derivation of the key, the lookup and the
    call, in this order. *)
Lemma _on_message_route st response :
  _on_message (Parses response) st
  = match correlation_key response with
    | Thrown e => (Thrown e, observed st (Parses response))
    | Returned key =>
        match slot st key with
        | Some h =>
            if truthy_handler h
            then (call_handler h response ;; ret tt) (observed st (Parses response))
            else console_log "Handler not found" (observed st (Parses response))
        | None => console_log "Handler not found" (observed st (Parses response))
        end
    end.
Proof.
  assert (Hlookup : forall key s,
             (var found := get_handler key ;
              match found with
              | Some handler =>
                  if truthy_handler handler
                  then call_handler handler response ;; ret tt
                  else console_log "Handler not found"
              | None => console_log "Handler not found"
              end) s
             = match slot s key with
               | Some h =>
                   if truthy_handler h
                   then (call_handler h response ;; ret tt) s
                   else console_log "Handler not found" s
               | None => console_log "Handler not found" s
               end).
  { intros key s. unfold bind at 1, get_handler, slot.
    destruct (handler_map s !! key) as [h|]; [by destruct (truthy_handler h)|].
    destruct (Object_prototype_get key) as [v|]; simpl; [by destruct (truthy v)|done]. }
  unfold _on_message, correlation_key, and_then.
  unfold bind at 1. simpl. unfold bind at 1. simpl.
  unfold bind at 1, lift at 1.
  destruct (get_named response "id") as [id|e]; [|done].
  unfold bind at 1, lift at 1.
  destruct (get_named response "name") as [name|e]; [|done].
  unfold bind at 1, lift at 1.
  destruct (loose_eq name "update") as [[|]|e]; [| |done].
  - unfold bind at 1. unfold bind at 1, lift at 1.
    destruct (get_named response "address") as [address|e]; [|done].
    unfold bind at 1, lift at 1.
    destruct (plus "update." address) as [topic|e]; [|done].
    unfold ret at 1. unfold bind at 1, lift at 1. cbn [ToString converts to_string].
    exact (Hlookup topic (observed st (Parses response))).
  - unfold bind at 1, ret at 1. unfold bind at 1, lift at 1.
    destruct (ToString id) as [key|e]; [|done].
    exact (Hlookup key (observed st (Parses response))).
Qed.

Lemma _on_message_no_key st response :
  correlation_key response = Thrown TypeError ->
  _on_message (Parses response) st
  = (Thrown TypeError, observed st (Parses response)).
Proof. intros Hkey. by rewrite _on_message_route, Hkey. Qed.

Lemma _on_message_key st response key :
  correlation_key response = Returned key ->
  _on_message (Parses response) st
  = match slot st key with
    | Some h =>
        if truthy_handler h
        then (call_handler h response ;; ret tt) (observed st (Parses response))
        else console_log "Handler not found" (observed st (Parses response))
    | None => console_log "Handler not found" (observed st (Parses response))
    end.
Proof. intros Hkey. by rewrite _on_message_route, Hkey. Qed.


(** ** What a method leaves standing *)

Lemma preserves_ret {A} I (a : A) : preserves I (ret a).
Proof. by intros st. Qed.

Lemma preserves_throw {A} I e : preserves I (@throw A e).
Proof. by intros st. Qed.

Lemma preserves_lift {A} I (o : outcome A) : preserves I (lift o).
Proof. by intros st. Qed.

Lemma preserves_get_handler I key : preserves I (get_handler key).
Proof. by intros st. Qed.

Lemma preserves_bind {A B} I (m : M A) (k : A -> M B) :
  preserves I m -> (forall a, preserves I (k a)) -> preserves I (bind m k).
Proof.
  intros Hm Hk st HI. unfold bind.
  specialize (Hm st HI). destruct (m st) as [[a|e] st']; simpl in *.
  - by apply Hk.
  - done.
Qed.

Lemma preserves_if {A} I (b : bool) (m1 m2 : M A) :
  preserves I m1 -> preserves I m2 -> preserves I (if b then m1 else m2).
Proof. by destruct b. Qed.

Section Preservation.
(** [I] is a property of the client that survives everything but a
    registration, and survives the registrations that [ok] admits. *)
Variable I : client -> Prop.
Variable ok : string -> handler -> Prop.
Hypothesis I_log : forall st e,
  is_registration e = false -> I st -> I (with_trace st (trace st ++ [e])).
Hypothesis I_readyState : forall st r, I st -> I (with_readyState st r).
Hypothesis I_set : forall st key h,
  ok key h -> I st -> I (snd (set_handler key h st)).

Lemma preserves_log e : is_registration e = false -> preserves I (log e).
Proof. intros He st HI. by apply I_log. Qed.

Lemma preserves_set_handler key h : ok key h -> preserves I (set_handler key h).
Proof. intros Hok st HI. by apply I_set. Qed.

Lemma preserves_set_readyState r : preserves I (set_readyState r).
Proof. intros st HI. by apply I_readyState. Qed.

Lemma preserves_websocket_send msg : preserves I (websocket_send msg).
Proof.
  intros st HI. unfold websocket_send.
  destruct (readyState st); try done; by apply I_log.
Qed.

Lemma preserves_check_function h : preserves I (_check_function h).
Proof.
  unfold _check_function.
  apply preserves_if; [apply preserves_ret|apply preserves_throw].
Qed.

Lemma preserves_call_value f args : preserves I (call_value f args).
Proof.
  destruct f as [d|name raises|b|]; simpl.
  - apply preserves_throw.
  - apply preserves_bind; [by apply preserves_log|intros _].
    apply preserves_if; [apply preserves_throw|apply preserves_ret].
  - apply preserves_bind; [by apply preserves_log|intros _].
    apply preserves_lift.
  - apply preserves_throw.
Qed.

Lemma preserves_forward hf response : preserves I (forward hf response).
Proof.
  unfold forward.
  repeat (apply preserves_bind; [apply preserves_lift|intros ?]).
  apply preserves_call_value.
Qed.

Lemma preserves_call_handler h response :
  registration_ok ok h -> preserves I (call_handler h response).
Proof.
  destruct h as [f|hf|address hf hu]; simpl; intros Hok.
  - apply preserves_call_value.
  - apply preserves_bind; [apply preserves_forward|intros _; apply preserves_ret].
  - apply preserves_bind; [apply preserves_forward|intros _].
    apply preserves_bind; [|intros _; apply preserves_ret].
    destruct (truthy hu); [|apply preserves_ret].
    intros st HI. unfold bind, lift, plus, ToString.
    destruct (converts address); [|done].
    apply I_set; [by apply Hok|done].
Qed.

Lemma preserves_make_request u command params h :
  (is_function h = true -> ok (to_string (Num (_random_integer u))) h) ->
  preserves I (make_request u command params h).
Proof.
  intros Hok. unfold make_request, _check_function.
  destruct (is_function h).
  - apply preserves_bind; [apply preserves_ret|intros _].
    apply preserves_bind; [apply preserves_websocket_send|intros _].
    by apply preserves_set_handler, Hok.
  - by intros st HI.
Qed.

Lemma preserves_fetch u command params hf :
  ok (to_string (Num (_random_integer u))) (fetch_adapter hf) ->
  preserves I (_check_function (Given hf) ;;
               make_request u command params (fetch_adapter hf)).
Proof.
  intros Hok.
  apply preserves_bind; [apply preserves_check_function|intros _].
  by apply preserves_make_request.
Qed.

Lemma preserves__on_message evt_data :
  (forall h, registration_ok ok h) -> preserves I (_on_message evt_data).
Proof.
  intros Hok st HI.
  assert (Hobs : I (observed st evt_data)) by by apply I_log.
  destruct evt_data as [|response].
  { by rewrite _on_message_unparseable. }
  destruct (correlation_key response) as [key|e] eqn:Hkey.
  - rewrite (_on_message_key _ _ _ Hkey).
    destruct (slot st key) as [h|].
    + destruct (truthy_handler h).
      * apply (preserves_bind I (call_handler h response) (fun _ => ret tt));
          [by apply preserves_call_handler|intros _; apply preserves_ret|done].
      * by apply preserves_log.
    + by apply preserves_log.
  - pose proof (correlation_key_thrown _ _ Hkey) as ->.
    by rewrite _on_message_no_key.
Qed.

Lemma preserves_run i :
  (forall h, registration_ok ok h) ->
  (forall u h, in_unit_interval u -> is_function h = true ->
               ok (to_string (Num (_random_integer u))) h) ->
  well_formed i -> preserves I (run i).
Proof.
  intros Hreg Hreq Hwf.
  destruct i; simpl in *;
    try (apply preserves_fetch; by apply Hreq);
    try (apply preserves_make_request; by apply Hreq).
  - apply preserves_bind; [apply preserves_set_readyState|intros _].
    intros st HI.
    by apply (preserves_bind I (call_value (handle_connect st) []) (fun _ => ret tt));
      [apply preserves_call_value|intros _; apply preserves_ret|].
  - apply preserves_bind; [apply preserves_set_readyState|intros _; apply preserves_ret].
  - apply preserves_throw.
  - by apply preserves__on_message.
Qed.
End Preservation.

(** ** Invariants of the reachable states *)


Lemma reachable_preserved (I : client -> Prop) (ok : string -> handler -> Prop) :
  (forall st e, is_registration e = false -> I st ->
                I (with_trace st (trace st ++ [e]))) ->
  (forall st r, I st -> I (with_readyState st r)) ->
  (forall st key h, ok key h -> I st -> I (snd (set_handler key h st))) ->
  (forall h, registration_ok ok h) ->
  (forall u h, in_unit_interval u -> is_function h = true ->
               ok (to_string (Num (_random_integer u))) h) ->
  (forall connect_uri handle_connect, I (GatewayClient connect_uri handle_connect)) ->
  forall st, reachable st -> I st.
Proof.
  intros Hlog Hready Hset Hreg Hreq Hinit st Hst.
  induction Hst as [|st i _ IH Hwf]; [by apply Hinit|].
  by apply (preserves_run I ok).
Qed.


Lemma reachable_slot_ok st :
  reachable st -> forall key h, handler_map st !! key = Some h -> slot_ok key h.
Proof.
  apply (reachable_preserved
           (fun st => forall key h, handler_map st !! key = Some h -> slot_ok key h)
           slot_ok).
  - done.
  - done.
  - intros st' key h Hok Hst' key' h'. simpl.
    destruct (decide (key = key')) as [->|Hne].
    + rewrite lookup_insert_eq. by intros [= <-].
    + rewrite lookup_insert_ne by done. apply Hst'.
  - intros [f|hf|address hf hu]; simpl; try done.
    intros Htruthy. right. split; [by eexists|by eexists].
  - intros u h Hu Hfun. left. split; [by apply request_key_random|done].
  - intros uri hc key h. simpl. by rewrite lookup_empty.
Qed.


(** ** What one call appends to the trace *)

Lemma call_value_cases f args st :
  (callable f = false /\ call_value f args st = (Thrown TypeError, st))
  \/ (callable f = true /\
      exists o, call_value f args st
                = (o, with_trace st (trace st ++ [Invoked f args]))).
Proof.
  destruct f as [d|name raises|b|]; simpl.
  - by left.
  - right. split; [done|]. unfold bind. simpl. destruct raises; by eexists.
  - right. split; [done|]. unfold bind. simpl. by eexists.
  - by left.
Qed.

Lemma get_named_thrown x k e : get_named x k = Thrown e -> e = TypeError.
Proof. destruct x; simpl; congruence. Qed.

Lemma get_index_thrown x i e : get_index x i = Thrown e -> e = TypeError.
Proof. destruct x; simpl; congruence. Qed.

Lemma forward_cases hf response st :
  forward hf response st = (Thrown TypeError, st)
  \/ exists o error result0,
       forward hf response st
       = (o, with_trace st (trace st ++ [Invoked hf [error; result0]])).
Proof.
  unfold forward, bind, lift.
  destruct (get_named response "error") as [error|e] eqn:He.
  2:{ left. by rewrite (get_named_thrown _ _ _ He). }
  destruct (get_named response "result") as [result|e] eqn:Hr.
  2:{ left. by rewrite (get_named_thrown _ _ _ Hr). }
  destruct (get_index result 0) as [result0|e] eqn:H0.
  2:{ left. by rewrite (get_index_thrown _ _ _ H0). }
  destruct (call_value_cases hf [error; result0] st) as [[_ ->]|[_ [o ->]]].
  - by left.
  - right. by exists o, error, result0.
Qed.

(** The function of a slot enters at most one function of the caller, and
    registers at most one key: the update handler of a subscription, after
    the acknowledgement callback has returned. *)
Lemma call_handler_cases h response st :
  exists o st',
    call_handler h response st = (o, st')
    /\ readyState st' = readyState st
    /\ ((trace st' = trace st /\ handler_map st' = handler_map st)
        \/ (exists f args, trace st' = trace st ++ [Invoked f args]
                           /\ handler_map st' = handler_map st)
        \/ (exists address hf hu args,
              h = subscribe_adapter address hf hu
              /\ truthy hu = true
              /\ converts address = true
              /\ o = Returned Undefined
              /\ trace st' = trace st ++ [Invoked hf args;
                                          Registered ("update." +:+ to_string address)
                                                     (Given hu)]
              /\ handler_map st'
                 = <["update." +:+ to_string address := Given hu]> (handler_map st))).
Proof.
  destruct h as [f|hf|address hf hu]; simpl.
  - destruct (call_value_cases f [response] st) as [[_ ->]|[_ [o ->]]];
      do 2 eexists; (split; [reflexivity|]); (split; [done|]);
      [by left|right; left; by do 2 eexists].
  - unfold bind.
    destruct (forward_cases hf response st) as [->|(o & error & r0 & ->)].
    + do 2 eexists; (split; [reflexivity|]); (split; [done|]); eauto.
    + destruct o; do 2 eexists; (split; [reflexivity|]); (split; [done|]);
        right; left; by do 2 eexists.
  - unfold bind.
    destruct (forward_cases hf response st) as [->|(o & error & r0 & ->)].
    + do 2 eexists; (split; [reflexivity|]); (split; [done|]); eauto.
    + destruct o as [x|e].
      * destruct (truthy hu) eqn:Hhu; simpl.
        -- unfold lift, plus, ToString.
           destruct (converts address) eqn:Haddress; simpl.
           ++ do 2 eexists; (split; [reflexivity|]); (split; [done|]).
              right; right. exists address, hf, hu, [error; r0].
              simpl. rewrite <- app_assoc. done.
           ++ do 2 eexists; (split; [reflexivity|]); (split; [done|]).
              right; left; by do 2 eexists.
        -- do 2 eexists; (split; [reflexivity|]); (split; [done|]).
           right; left; by do 2 eexists.
      * do 2 eexists; (split; [reflexivity|]); (split; [done|]).
        right; left; by do 2 eexists.
Qed.

Lemma slot_subscribe_adapter st key address hf hu :
  slot st key = Some (subscribe_adapter address hf hu) ->
  handler_map st !! key = Some (subscribe_adapter address hf hu).
Proof.
  unfold slot. destruct (handler_map st !! key); [done|].
  by destruct (Object_prototype_get key).
Qed.

(** Everything [_on_message] can do with one frame: after the hook it
    throws, or logs that no handler was found, or calls the function of one
    slot; only the closure of a subscription touches the table. *)
Lemma _on_message_cases d st :
  exists o st' delta,
    _on_message d st = (o, st')
    /\ readyState st' = readyState st
    /\ trace st' = trace st ++ FrameObserved d :: delta
    /\ ((delta = [] /\ handler_map st' = handler_map st)
        \/ (delta = [ConsoleLog "Handler not found"] /\ o = Returned tt
            /\ handler_map st' = handler_map st)
        \/ (exists f args, delta = [Invoked f args]
                           /\ handler_map st' = handler_map st)
        \/ (exists response key address hf hu args,
              d = Parses response
              /\ correlation_key response = Returned key
              /\ handler_map st !! key = Some (subscribe_adapter address hf hu)
              /\ truthy hu = true
              /\ converts address = true
              /\ delta = [Invoked hf args;
                          Registered ("update." +:+ to_string address) (Given hu)]
              /\ handler_map st'
                 = <["update." +:+ to_string address := Given hu]> (handler_map st))).
Proof.
  destruct d as [|response].
  { rewrite _on_message_unparseable. exists (Thrown SyntaxError). do 2 eexists.
    split; [reflexivity|]. split; [done|]. split; [done|]. by left. }
  destruct (correlation_key response) as [key|e] eqn:Hkey.
  2:{ pose proof (correlation_key_thrown _ _ Hkey) as ->.
      rewrite (_on_message_no_key _ _ Hkey). exists (Thrown TypeError).
      do 2 eexists.
      split; [reflexivity|]. split; [done|]. split; [done|]. by left. }
  rewrite (_on_message_key _ _ _ Hkey).
  assert (Hlog : exists o st' delta,
             console_log "Handler not found" (observed st (Parses response)) = (o, st')
             /\ readyState st' = readyState st
             /\ trace st' = trace st ++ FrameObserved (Parses response) :: delta
             /\ delta = [ConsoleLog "Handler not found"] /\ o = Returned tt
             /\ handler_map st' = handler_map st).
  { do 3 eexists. split; [reflexivity|]. simpl. rewrite <- app_assoc. done. }
  destruct (slot st key) as [h|] eqn:Hslot.
  2:{ destruct Hlog as (o & st' & delta & -> & ? & ? & ?).
      exists o, st', delta. do 3 (split; [done|]). by right; left. }
  destruct (truthy_handler h).
  2:{ destruct Hlog as (o & st' & delta & -> & ? & ? & ?).
      exists o, st', delta. do 3 (split; [done|]). by right; left. }
  unfold bind.
  destruct (call_handler_cases h response (observed st (Parses response)))
    as (o & st' & -> & Hready & Hcases).
  simpl in Hready, Hcases.
  destruct Hcases as [[Ht Hm]|[(f & args & Ht & Hm)
                              |(address & hf & hu & args & -> & Hhu & Haddress & ->
                                & Ht & Hm)]].
  - exists (match o with Returned _ => Returned tt | Thrown e => Thrown e end), st', [].
    split; [by destruct o|]. split; [done|]. split; [done|]. by left.
  - exists (match o with Returned _ => Returned tt | Thrown e => Thrown e end), st',
      [Invoked f args].
    split; [by destruct o|]. split; [done|].
    split; [by rewrite Ht, <- app_assoc|].
    right; right; left. by do 2 eexists.
  - exists (Returned tt), st',
      [Invoked hf args; Registered ("update." +:+ to_string address) (Given hu)].
    split; [done|]. split; [done|].
    split; [by rewrite Ht, <- app_assoc|].
    right; right; right.
    exists response, key, address, hf, hu, args.
    apply slot_subscribe_adapter in Hslot. done.
Qed.

(** ** What a request and one step do to the table *)

Lemma make_request_cases u command params h st :
  let key := to_string (Num (_random_integer u)) in
  let message := JSON_stringify (Obj [("id", Num (_random_integer u));
                                      ("command", command); ("params", params)]) in
  (exists e, make_request u command params h st = (Thrown e, st))
  \/ (is_function h = true /\
      make_request u command params h st
      = (Returned tt,
         with_trace (with_handler_map st (<[key := h]> (handler_map st)))
                    (trace st ++ [WsSend message; Registered key h]))).
Proof.
  intros key message. unfold make_request, _check_function, bind.
  destruct (is_function h); simpl; [|by left; eexists].
  unfold websocket_send.
  destruct (readyState st) eqn:Hr; [by left; eexists|..];
    right; (split; [done|]);
    unfold set_handler, log, with_trace, with_handler_map; simpl;
    by rewrite <- app_assoc.
Qed.

(** A request writes one key, a numeral: no topic key changes. *)
Lemma make_request_topic u command params h st topic :
  topic_key topic ->
  handler_map (snd (make_request u command params h st)) !! topic
  = handler_map st !! topic.
Proof.
  intros Htopic.
  destruct (make_request_cases u command params h st) as [[e ->]|[_ ->]]; [done|].
  simpl. apply lookup_insert_ne. intros Heq.
  apply (numeral_not_topic_key (_random_integer u)). by rewrite Heq.
Qed.




(** A request that passes the check on an open socket returns, having sent
    and then registered. *)
Lemma make_request_returns u command params h st :
  is_function h = true ->
  readyState st <> CONNECTING ->
  let key := to_string (Num (_random_integer u)) in
  let message := JSON_stringify (Obj [("id", Num (_random_integer u));
                                      ("command", command); ("params", params)]) in
  exists st',
    make_request u command params h st = (Returned tt, st')
    /\ trace st' = trace st ++ [WsSend message; Registered key h]
    /\ handler_map st' = <[key := h]> (handler_map st)
    /\ handler_map st' !! key = Some h.
Proof.
  intros Hfun Hready key message.
  unfold make_request, _check_function, bind. rewrite Hfun. simpl.
  unfold websocket_send.
  destruct (readyState st) eqn:Hr; [done|..];
    (eexists; split; [reflexivity|]; simpl; rewrite <- app_assoc;
     split; [done|]; split; [done|]; apply lookup_insert_eq).
Qed.

(** The three ways a request can end. *)
Lemma make_request_outcomes u command params h st :
  let key := to_string (Num (_random_integer u)) in
  let message := JSON_stringify (Obj [("id", Num (_random_integer u));
                                      ("command", command); ("params", params)]) in
  (is_function h = false
   /\ make_request u command params h st = (Thrown Parameter_is_not_a_function, st))
  \/ (is_function h = true /\ readyState st = CONNECTING
      /\ make_request u command params h st = (Thrown InvalidStateError, st))
  \/ (is_function h = true /\ readyState st <> CONNECTING
      /\ make_request u command params h st
         = (Returned tt,
            with_trace (with_handler_map st (<[key := h]> (handler_map st)))
                       (trace st ++ [WsSend message; Registered key h]))).
Proof.
  intros key message.
  destruct (is_function h) eqn:Hfun.
  2:{ left. split; [done|].
      unfold make_request, _check_function, bind. by rewrite Hfun. }
  right.
  assert (Hrun : make_request u command params h st
                 = (_check_function h ;; websocket_send message ;; set_handler key h) st)
    by reflexivity.
  destruct (readyState st) eqn:Hready; [left|right..];
    (split; [done|]); (split; [done|]);
    rewrite Hrun; unfold _check_function, bind, websocket_send, set_handler, log;
    rewrite Hfun; simpl; rewrite Hready; simpl;
    try done; unfold with_trace, with_handler_map; simpl;
    by rewrite <- app_assoc.
Qed.

(** ** Concrete clients *)

Lemma connected_reachable : reachable connected.
Proof. by apply reachable_step; [apply reachable_new|]. Qed.

Example _random_integer_draw_7 : _random_integer (draw 7) = 7.
Proof. reflexivity. Qed.

(** ** C1: a frame that is not JSON *)

(** C1, as stated, fails: on a frame whose data is not parseable the router
    does not complete normally and logs nothing; [JSON.parse] throws and the
    [SyntaxError] leaves [_on_message]. *)
Lemma C1_unparseable_frame_throws :
  _on_message Unparseable connected
  = (Thrown SyntaxError, observed connected Unparseable)
  /\ ~ (exists st', _on_message Unparseable connected = (Returned tt, st'))
  /\ ~ (exists msg, In (ConsoleLog msg)
                       (trace (snd (_on_message Unparseable connected)))).
Proof.
  split; [reflexivity|]. split.
  - by intros [st' H].
  - intros [msg H]. simpl in H. by destruct H as [H|[H|[]]].
Qed.

(** C1, amended: for every inbound frame whose data is not parseable as
    JSON, the frame-observed hook runs and then the parse failure leaves the
    router as a thrown [SyntaxError]; no callback is invoked, the handler
    table is unchanged and nothing is logged. *)
Theorem C1_unparseable_frame (st : client) :
  exists st',
    _on_message Unparseable st = (Thrown SyntaxError, st')
    /\ handler_map st' = handler_map st
    /\ readyState st' = readyState st
    /\ trace st' = trace st ++ [FrameObserved Unparseable].
Proof. by eexists. Qed.

(** ** C2: callbacks that are not functions *)

Lemma make_request_checks u command params h st :
  is_function h = false ->
  make_request u command params h st = (Thrown Parameter_is_not_a_function, st).
Proof. intros H. unfold make_request, _check_function, bind. by rewrite H. Qed.

(** Every [fetch_*] method refuses a callback that is not a function before
    it sends or registers anything. *)
Lemma fetch_methods_check u x hf st :
  is_function (Given hf) = false ->
  fetch_last_height u hf st = (Thrown Parameter_is_not_a_function, st)
  /\ fetch_transaction u x hf st = (Thrown Parameter_is_not_a_function, st)
  /\ fetch_history u x hf st = (Thrown Parameter_is_not_a_function, st)
  /\ fetch_block_header u x hf st = (Thrown Parameter_is_not_a_function, st)
  /\ fetch_block_transaction_hashes u x hf st
     = (Thrown Parameter_is_not_a_function, st)
  /\ fetch_spend u x hf st = (Thrown Parameter_is_not_a_function, st).
Proof.
  intros H.
  unfold fetch_last_height, fetch_transaction, fetch_history, fetch_block_header,
    fetch_block_transaction_hashes, fetch_spend, _check_function, bind.
  by rewrite H.
Qed.

(** C2 at its failing input: [subscribe] and [renew] never look at
    [handle_fetch]. Called with [undefined] for it they return normally,
    having sent the request and registered the closure that will call the
    missing callback; the failure comes only when the acknowledgement is
    routed, as a [TypeError] out of the router. *)
Theorem C2_subscribe_renew_skip_the_check :
  let h := subscribe_adapter (Str "abc") (Data Undefined) (Data Undefined) in
  let frame := fun command =>
    JSON_stringify (Obj [("id", Num 7); ("command", Str command);
                         ("params", Arr [Str "abc"])]) in
  let ack := Parses (Obj [("id", Num 7); ("error", Null);
                          ("result", Arr [Bool true])]) in
  is_function (Given (Data Undefined)) = false
  /\ subscribe (draw 7) (Str "abc") (Data Undefined) (Data Undefined) connected
     = (Returned tt,
        with_trace (with_handler_map connected (<["7" := h]> (handler_map connected)))
                   (trace connected ++ [WsSend (frame "subscribe_address");
                                        Registered "7" h]))
  /\ renew (draw 7) (Str "abc") (Data Undefined) (Data Undefined) connected
     = (Returned tt,
        with_trace (with_handler_map connected (<["7" := h]> (handler_map connected)))
                   (trace connected ++ [WsSend (frame "renew_address");
                                        Registered "7" h]))
  /\ fst (_on_message ack
            (snd (subscribe (draw 7) (Str "abc") (Data Undefined) (Data Undefined)
                    connected)))
     = Thrown TypeError.
Proof. repeat split; reflexivity. Qed.

(** ** C3: the order of send and registration *)

(** C3, as stated, fails: [make_request] runs [websocket.send] and then the
    assignment to [handler_map]. The state between the two statements has
    the request sent and the id not registered. *)
Lemma C3_sent_before_registered :
  let h := Given (UserFn "handler" false) in
  let message := JSON_stringify (Obj [("id", Num 7); ("command", Str "fetch_last_height");
                                      ("params", Arr [])]) in
  let between := snd ((_check_function h ;; websocket_send message) connected) in
  make_request (draw 7) (Str "fetch_last_height") (Arr []) h connected
  = set_handler "7" h between
  /\ fst (make_request (draw 7) (Str "fetch_last_height") (Arr []) h connected)
     = Returned tt
  /\ In (WsSend message) (trace between)
  /\ handler_map between !! "7" = None.
Proof. repeat split; try reflexivity. simpl. auto. Qed.

(** C3, amended: for every successful [make_request] the frame is handed to
    the transport first and the mapping from the id to the handler is
    registered next, as the last action of the same call: the call appends
    exactly the send and then the registration, and returns with the id
    bound to the handler. When the send throws, which it does while the
    socket is still connecting, the call throws [InvalidStateError] and
    leaves the client as it was: nothing is sent and nothing is
    registered. *)
Theorem C3_send_then_register u command params h st :
  is_function h = true ->
  let key := to_string (Num (_random_integer u)) in
  let message := JSON_stringify (Obj [("id", Num (_random_integer u));
                                      ("command", command); ("params", params)]) in
  (readyState st <> CONNECTING ->
   exists st',
     make_request u command params h st = (Returned tt, st')
     /\ trace st' = trace st ++ [WsSend message; Registered key h]
     /\ handler_map st' = <[key := h]> (handler_map st)
     /\ handler_map st' !! key = Some h)
  /\ (readyState st = CONNECTING ->
      make_request u command params h st = (Thrown InvalidStateError, st)).
Proof.
  intros Hfun key message. split.
  - intros Hready. by apply make_request_returns.
  - intros Hready.
    by destruct (make_request_outcomes u command params h st)
      as [[Hno _]|[(_ & _ & Hrun)|(_ & Hopen & _)]]; [congruence| |].
Qed.

Lemma C3_send_then_register_witness :
  let h := Given (UserFn "handler" false) in
  let fresh := GatewayClient "ws://gateway" (UserFn "handle_connect" false) in
  (exists st',
     make_request (draw 7) (Str "fetch_last_height") (Arr []) h connected
     = (Returned tt, st')
     /\ handler_map st' !! "7" = Some h)
  /\ make_request (draw 7) (Str "fetch_last_height") (Arr []) h fresh
     = (Thrown InvalidStateError, fresh).
Proof.
  intros h fresh. split.
  - destruct (C3_send_then_register (draw 7) (Str "fetch_last_height") (Arr [])
                h connected eq_refl) as [Hsent _].
    destruct Hsent as (st' & Hrun & _ & _ & Hkey); [discriminate|].
    exists st'. split; [exact Hrun|exact Hkey].
  - destruct (C3_send_then_register (draw 7) (Str "fetch_last_height") (Arr [])
                h fresh eq_refl) as [_ Hthrown].
    exact (Hthrown eq_refl).
Defined.

(** ** C4: routing a parseable frame *)




(** ** C5: one callback per key, the last one registered *)

Lemma forward_handler_map hf response st :
  handler_map (snd (forward hf response st)) = handler_map st.
Proof. by destruct (forward_cases hf response st) as [->|(o & e & r & ->)]. Qed.





(** ** C6: when the update handler is registered *)




(** The scenario of a subscription: nothing is bound under the topic after
    the call, nor after an update that arrives before the acknowledgement
    (it is reported as unroutable); the acknowledgement calls the
    acknowledgement callback and then binds the update handler; the next
    update for the address reaches it, and one for another address does
    not. *)
Example subscribe_scenario :
  let on_ack := UserFn "on_ack" false in
  let on_update := UserFn "on_update" false in
  let update := fun address =>
    Obj [("name", Str "update"); ("address", Str address); ("height", Num 99)] in
  let ack := Obj [("id", Num 7); ("error", Null); ("result", Arr [Bool true])] in
  let st1 := step connected (call_subscribe (draw 7) (Str "abc") on_ack on_update) in
  let st2 := step st1 (onmessage (Parses (update "abc"))) in
  let st3 := step st2 (onmessage (Parses ack)) in
  let st4 := step st3 (onmessage (Parses (update "abc"))) in
  let st5 := step st4 (onmessage (Parses (update "xyz"))) in
  handler_map st1 !! "update.abc" = None
  /\ trace st2 = trace st1 ++ [FrameObserved (Parses (update "abc"));
                               ConsoleLog "Handler not found"]
  /\ trace st3 = trace st2 ++ [FrameObserved (Parses ack);
                               Invoked on_ack [Null; Bool true];
                               Registered "update.abc" (Given on_update)]
  /\ trace st4 = trace st3 ++ [FrameObserved (Parses (update "abc"));
                               Invoked on_update [update "abc"]]
  /\ trace st5 = trace st4 ++ [FrameObserved (Parses (update "xyz"));
                               ConsoleLog "Handler not found"].
Proof. repeat split; reflexivity. Qed.


(** ** C7: renewing without an update handler *)

(** C7: a [renew] called without [handle_update] leaves the entry under the
    topic key exactly as it was -- at the call, and at the completion of the
    request, when the closure it registered runs: that closure changes no
    entry of the table at all, however the acknowledgement frame looks and
    whatever the acknowledgement callback does. *)
Theorem C7_renew_without_update_handler u address hf st :
  let topic := "update." +:+ to_string address in
  let h := subscribe_adapter address hf (Data Undefined) in
  handler_map (snd (renew u address hf (Data Undefined) st)) !! topic
  = handler_map st !! topic
  /\ (forall response s,
        handler_map (snd (call_handler h response s)) = handler_map s)
  /\ (forall response key s,
        correlation_key response = Returned key ->
        handler_map s !! key = Some h ->
        handler_map (snd (_on_message (Parses response) s)) = handler_map s).
Proof.
  intros topic h.
  assert (Hcall : forall response s,
             handler_map (snd (call_handler h response s)) = handler_map s).
  { intros response s. unfold h, call_handler, bind.
    pose proof (forward_handler_map hf response s) as Hm.
    by destruct (forward hf response s) as [[x|e] s1]. }
  split; [|split].
  - apply make_request_topic. by eexists.
  - exact Hcall.
  - intros response key s Hkey Hslot.
    rewrite (_on_message_key _ _ _ Hkey). unfold slot. rewrite Hslot.
    change (truthy_handler h) with true. cbv beta iota. unfold bind.
    pose proof (Hcall response (observed s (Parses response))) as Hm.
    by destruct (call_handler h response (observed s (Parses response)))
      as [[x|e] s1].
Qed.

Lemma C7_renew_without_update_handler_witness :
  let on_update := UserFn "on_update" false in
  let on_ack := UserFn "on_ack" false in
  let ack := fun id =>
    Parses (Obj [("id", Num id); ("error", Null); ("result", Arr [Bool true])]) in
  let st1 := steps connected
               [call_subscribe (draw 7) (Str "abc") on_ack on_update;
                onmessage (ack 7);
                call_renew (draw 8) (Str "abc") on_ack (Data Undefined)] in
  handler_map st1 !! "update.abc" = Some (Given on_update)
  /\ handler_map (snd (_on_message (ack 8) st1)) !! "update.abc"
     = Some (Given on_update).
Proof.
  intros on_update on_ack ack st1. split; [reflexivity|].
  destruct (C7_renew_without_update_handler (draw 8) (Str "abc") on_ack st1)
    as (_ & _ & Hroute).
  pose proof (Hroute (Obj [("id", Num 8); ("error", Null); ("result", Arr [Bool true])])
                     "8" st1 eq_refl eq_refl) as Hsame.
  unfold ack. rewrite Hsame. reflexivity.
Defined.

(** ** C8: the height request and its response *)

Lemma append_assoc (a b c : string) : (a +:+ b) +:+ c = a +:+ b +:+ c.
Proof.
  induction a as [|x a IH]; [done|].
  change (String x ((a +:+ b) +:+ c) = String x (a +:+ b +:+ c)).
  by rewrite IH.
Qed.

Lemma JSON_stringify_height_request i :
  JSON_stringify (Obj [("id", Num i); ("command", Str "fetch_last_height");
                       ("params", Arr [])])
  = request_text i "fetch_last_height".
Proof.
  unfold JSON_stringify, request_text. simpl.
  rewrite !append_assoc. reflexivity.
Qed.

(** [fetch_last_height] on a socket that is not connecting, with a callback
    that is a function. *)
Lemma fetch_last_height_returns u handle_fetch st :
  callable handle_fetch = true ->
  readyState st <> CONNECTING ->
  fetch_last_height u handle_fetch st
  = (Returned tt,
     with_trace
       (with_handler_map st
          (<[to_string (Num (_random_integer u)) := fetch_adapter handle_fetch]>
             (handler_map st)))
       (trace st ++ [WsSend (request_text (_random_integer u) "fetch_last_height");
                     Registered (to_string (Num (_random_integer u)))
                                (fetch_adapter handle_fetch)])).
Proof.
  intros Hfun Hready. unfold fetch_last_height, _check_function, bind.
  unfold callable in Hfun. rewrite Hfun. simpl.
  destruct (make_request_cases u (Str "fetch_last_height") (Arr [])
              (fetch_adapter handle_fetch) st) as [[e Hthrown]|[_ ->]];
    [|by rewrite JSON_stringify_height_request].
  exfalso. revert Hthrown. unfold make_request, _check_function, bind. simpl.
  unfold websocket_send. by destruct (readyState st).
Qed.

(** C8: [fetch_last_height(handle_fetch)] sends exactly one frame, the text
    of [{"id": i, "command": "fetch_last_height", "params": []}] for the id
    [i] it drew, and registers its closure under [i]; routing a response
    [{"id": i, "error": e, "result": [v, ...]}] then calls [handle_fetch]
    with exactly [e] and [v]. *)
Theorem C8_fetch_last_height u handle_fetch st :
  callable handle_fetch = true ->
  readyState st <> CONNECTING ->
  let i := _random_integer u in
  exists st1,
    fetch_last_height u handle_fetch st = (Returned tt, st1)
    /\ trace st1
       = trace st ++ [WsSend (request_text i "fetch_last_height");
                      Registered (to_string (Num i)) (fetch_adapter handle_fetch)]
    /\ request_text i "fetch_last_height"
       = JSON_stringify (Obj [("id", Num i); ("command", Str "fetch_last_height");
                              ("params", Arr [])])
    /\ forall e v rest,
         let frame := Parses (Obj [("id", Num i); ("error", e);
                                   ("result", Arr (v :: rest))]) in
         trace (snd (_on_message frame st1))
         = trace st1 ++ [FrameObserved frame; Invoked handle_fetch [e; v]].
Proof.
  intros Hfun Hready i.
  eexists. split; [by apply fetch_last_height_returns|].
  split; [done|]. split; [by rewrite JSON_stringify_height_request|].
  intros e v rest frame.
  set (st1 := with_trace _ _).
  assert (Hkey : correlation_key (Obj [("id", Num i); ("error", e);
                                       ("result", Arr (v :: rest))])
                 = Returned (to_string (Num i))) by reflexivity.
  unfold frame. rewrite (_on_message_key _ _ _ Hkey).
  assert (Hslot : slot st1 (to_string (Num i)) = Some (fetch_adapter handle_fetch)).
  { unfold slot, st1. simpl. by rewrite lookup_insert_eq. }
  rewrite Hslot. simpl. unfold bind, forward, bind. simpl.
  destruct (call_value_cases handle_fetch [e; v] (observed st1 frame))
    as [[Hno _]|[_ [o Hcall]]]; [congruence|].
  unfold frame in Hcall. rewrite Hcall.
  destruct o; simpl; by rewrite <- app_assoc.
Qed.

(** The scenario of C8: with the id 7, the transport receives
    [{"id":7,"command":"fetch_last_height","params":[]}], and the response
    [{"id":7,"error":null,"result":[12345]}] calls [handle_fetch(null, 12345)]. *)
Lemma C8_fetch_last_height_witness :
  let handle_fetch := UserFn "handle_fetch" false in
  let frame := Parses (Obj [("id", Num 7); ("error", Null);
                            ("result", Arr [Num 12345])]) in
  exists st1,
    fetch_last_height (draw 7) handle_fetch connected = (Returned tt, st1)
    /\ trace st1
       = trace connected
           ++ [WsSend ("{" +:+ quoted "id" +:+ ":7," +:+ quoted "command" +:+ ":"
                           +:+ quoted "fetch_last_height" +:+ ","
                           +:+ quoted "params" +:+ ":[]}");
               Registered "7" (fetch_adapter handle_fetch)]
    /\ trace (snd (_on_message frame st1))
       = trace st1 ++ [FrameObserved frame; Invoked handle_fetch [Null; Num 12345]].
Proof.
  intros handle_fetch frame.
  destruct (C8_fetch_last_height (draw 7) handle_fetch connected)
    as (st1 & Hrun & Htrace & _ & Hroute); [reflexivity|discriminate|].
  exists st1. split; [exact Hrun|]. split; [exact Htrace|].
  exact (Hroute Null (Num 12345) []).
Defined.

(** ** C9: request keys and topic keys *)

(** The key of an update frame is a topic key; the key of any other frame
    with a numeric id is the numeral of the id. *)
Lemma correlation_key_kind response key :
  correlation_key response = Returned key ->
  (forall name, get_named response "name" = Returned name ->
                loosely_equals name "update" = true -> topic_key key)
  /\ (forall name n, get_named response "name" = Returned name ->
                     loosely_equals name "update" = false ->
                     get_named response "id" = Returned (Num n) ->
                     key = to_string (Num n)).
Proof.
  unfold correlation_key, and_then, loose_eq, plus, ToString.
  destruct (get_named response "id") as [id|]; [|done].
  destruct (get_named response "name") as [name|]; [|done].
  destruct (converts name); [|done].
  destruct (loosely_equals name "update") eqn:Hupdate.
  - destruct (get_named response "address") as [address|]; [|done].
    destruct (converts address); [|done].
    intros [= <-]. split.
    + intros ? _ _. by eexists.
    + intros ? n [= <-]. congruence.
  - destruct (converts id); [|done].
    intros [= <-]. split.
    + intros ? [= <-]. congruence.
    + by intros ? n _ _ [= ->].
Qed.

(** C9: no string is both a key that [make_request] registers (the numeral
    of an integer in [0, 2^32)) and a topic key (a string that begins with
    ['update.']). [make_request] registers request keys only and the
    function of a slot registers topic keys only, so in every reachable
    state each bound key is of exactly one kind: a request key bound to a
    function that passed [_check_function], or a topic key bound to an
    update handler. A frame with [name == "update"] is looked up under a
    topic key, so it can only reach an update handler; a frame that is not
    an update and carries a numeric id is looked up under the numeral of the
    id, so it can only reach an entry registered by [make_request]. *)
Theorem C9_key_spaces_disjoint st :
  reachable st ->
  (forall key, request_key key -> topic_key key -> False)
  /\ (forall s u command params h key h',
        in_unit_interval u ->
        In (Registered key h') (trace (snd (make_request u command params h s))) ->
        In (Registered key h') (trace s) \/ request_key key)
  /\ (forall s h response key h',
        In (Registered key h') (trace (snd (call_handler h response s))) ->
        In (Registered key h') (trace s) \/ topic_key key)
  /\ (forall key h, handler_map st !! key = Some h -> slot_ok key h)
  /\ (forall response key name h,
        correlation_key response = Returned key ->
        get_named response "name" = Returned name ->
        loosely_equals name "update" = true ->
        handler_map st !! key = Some h ->
        topic_key key /\ ~ request_key key
        /\ exists v, h = Given v /\ truthy v = true)
  /\ (forall response key name n h,
        correlation_key response = Returned key ->
        get_named response "name" = Returned name ->
        loosely_equals name "update" = false ->
        get_named response "id" = Returned (Num n) ->
        handler_map st !! key = Some h ->
        key = to_string (Num n) /\ ~ topic_key key
        /\ request_key key /\ is_function h = true).
Proof.
  intros Hst.
  assert (Hdisjoint : forall key, request_key key -> topic_key key -> False)
    by (intros key Hr Ht; by apply (request_key_not_topic_key key)).
  pose proof (reachable_slot_ok st Hst) as Hslots.
  split; [done|]. split; [|split; [|split; [done|split]]].
  - intros s u command params h key h' Hu.
    destruct (make_request_cases u command params h s) as [[e ->]|[_ ->]];
      [by left|].
    simpl. rewrite in_app_iff. intros [H|[H|[H|[]]]]; [by left|done|].
    right. injection H as <- _. by apply request_key_random.
  - intros s h response key h'.
    destruct (call_handler_cases h response s) as (o & s' & Hrun & _ & Hcases).
    rewrite Hrun. simpl.
    destruct Hcases as [[-> _]|[(f & args & -> & _)|H]].
    + by left.
    + rewrite in_app_iff. intros [H|[H|[]]]; [by left|done].
    + destruct H as (address & hf & hu & args & _ & _ & _ & _ & -> & _).
      rewrite in_app_iff. intros [H|[H|[H|[]]]]; [by left|done|].
      right. injection H as <- _. by eexists.
  - intros response key name h Hkey Hname Hupdate Hh.
    destruct (correlation_key_kind response key Hkey) as [Htopic _].
    specialize (Htopic name Hname Hupdate).
    split; [done|]. split; [by intros Hr; apply (Hdisjoint key)|].
    destruct (Hslots key h Hh) as [[Hr _]|[_ Hv]]; [|done].
    by destruct (Hdisjoint key).
  - intros response key name n h Hkey Hname Hupdate Hid Hh.
    destruct (correlation_key_kind response key Hkey) as [_ Hnum].
    specialize (Hnum name n Hname Hupdate Hid). subst key.
    split; [done|]. split; [apply numeral_not_topic_key|].
    destruct (Hslots _ h Hh) as [[Hr Hf]|[Ht _]]; [done|].
    by destruct (numeral_not_topic_key n).
Qed.

Lemma C9_key_spaces_disjoint_witness :
  let on_ack := UserFn "on_ack" false in
  let on_update := UserFn "on_update" false in
  let st := steps connected
              [call_subscribe (draw 7) (Str "abc") on_ack on_update;
               onmessage (Parses (Obj [("id", Num 7); ("error", Null);
                                       ("result", Arr [Bool true])]))] in
  handler_map st !! "update.abc" = Some (Given on_update)
  /\ topic_key "update.abc" /\ ~ request_key "update.abc"
  /\ request_key "7" /\ ~ topic_key "7".
Proof.
  intros on_ack on_update st.
  assert (Hst : reachable st).
  { apply reachable_step; [|exact Logic.I].
    apply reachable_step; [apply connected_reachable|]. by compute. }
  destruct (C9_key_spaces_disjoint st Hst) as (_ & _ & _ & _ & Hupdate & Hresponse).
  destruct (Hupdate (Obj [("name", Str "update"); ("address", Str "abc")])
              "update.abc" (Str "update") (Given on_update))
    as (Htopic & Hnot & _); [reflexivity..|].
  destruct (Hresponse (Obj [("id", Num 7)]) "7" Undefined 7
              (subscribe_adapter (Str "abc") on_ack on_update))
    as (_ & Hnot' & Hreq & _); [reflexivity..|].
  split; [reflexivity|]. split; [exact Htopic|]. split; [exact Hnot|].
  split; [exact Hreq|exact Hnot'].
Defined.

(** ** C10: reading [result[0]] *)

(** C10, as stated, fails for a response without [result]: the closure of a
    [fetch_*] method reads [response["result"][0]] before it calls the
    caller's handler, and reading [[0]] of [undefined] throws. The handler is
    not invoked. *)
Lemma C10_absent_result_throws :
  let handle_fetch := UserFn "handle_fetch" false in
  let frame := Parses (Obj [("id", Num 7); ("error", Null)]) in
  let st1 := snd (fetch_last_height (draw 7) handle_fetch connected) in
  handler_map st1 !! "7" = Some (fetch_adapter handle_fetch)
  /\ _on_message frame st1 = (Thrown TypeError, observed st1 frame)
  /\ ~ (exists args, In (Invoked handle_fetch args)
                        (trace (snd (_on_message frame st1)))).
Proof.
  split; [reflexivity|]. split; [reflexivity|].
  intros [args H]. simpl in H.
  repeat (destruct H as [H|H]; [discriminate H|]). done.
Qed.

(** C10, amended: the closure of every one-shot command reads
    [response["error"]] and [response["result"][0]] without checking the
    frame. When [result] is a non-empty array the caller's handler receives
    the error and the first element; when it is the empty array the handler
    is still called and receives [undefined] as result; when [result] is
    absent or [null], reading [[0]] raises a [TypeError] and the handler is
    not called. *)
Theorem C10_result_extraction handle_fetch props st :
  let response := Obj props in
  let error := default Undefined (assoc "error" props) in
  (forall v rest,
     assoc "result" props = Some (Arr (v :: rest)) ->
     get_index (Arr (v :: rest)) 0 = Returned v
     /\ forward handle_fetch response st = call_value handle_fetch [error; v] st)
  /\ (assoc "result" props = Some (Arr []) ->
      forward handle_fetch response st
      = call_value handle_fetch [error; Undefined] st)
  /\ (assoc "result" props = None \/ assoc "result" props = Some Null ->
      forward handle_fetch response st = (Thrown TypeError, st)
      /\ call_handler (fetch_adapter handle_fetch) response st
         = (Thrown TypeError, st))
  /\ (forall args,
        callable handle_fetch = true ->
        trace (snd (call_value handle_fetch args st))
        = trace st ++ [Invoked handle_fetch args]).
Proof.
  intros response error. unfold call_handler, forward, bind, lift. simpl.
  fold error.
  split; [|split; [|split]].
  - intros v rest Hr. by rewrite Hr.
  - intros Hr. by rewrite Hr.
  - intros [Hr|Hr]; rewrite Hr; split; reflexivity.
  - intros args Hfun.
    by destruct (call_value_cases handle_fetch args st)
      as [[Hno _]|[_ [o ->]]]; [congruence|].
Qed.

Lemma C10_result_extraction_witness :
  let handle_fetch := UserFn "handle_fetch" false in
  let props := fun result => [("id", Num 7); ("error", Null); ("result", result)] in
  trace (snd (forward handle_fetch (Obj (props (Arr [Num 12345]))) connected))
  = trace connected ++ [Invoked handle_fetch [Null; Num 12345]]
  /\ trace (snd (forward handle_fetch (Obj (props (Arr []))) connected))
     = trace connected ++ [Invoked handle_fetch [Null; Undefined]]
  /\ forward handle_fetch (Obj (props Null)) connected = (Thrown TypeError, connected).
Proof.
  intros handle_fetch props.
  destruct (C10_result_extraction handle_fetch (props (Arr [Num 12345])) connected)
    as (Hfull & _ & _ & Hcall).
  destruct (C10_result_extraction handle_fetch (props (Arr [])) connected)
    as (_ & Hempty & _ & _).
  destruct (C10_result_extraction handle_fetch (props Null) connected)
    as (_ & _ & Habsent & _).
  split; [|split].
  - destruct (Hfull (Num 12345) [] eq_refl) as [_ ->]. by apply Hcall.
  - rewrite (Hempty eq_refl). by apply Hcall.
  - exact (proj1 (Habsent (or_intror eq_refl))).
Defined.

(** * Further properties of the client *)

(** ** The identifier allocator *)

Lemma _random_integer_draw (n : Z) : _random_integer (draw n) = n.
Proof.
  unfold _random_integer, draw, Qfloor, Qmult. simpl Qnum. simpl Qden.
  rewrite Pos.mul_1_r. by apply Z.div_mul.
Qed.

Lemma draw_in_unit_interval (n : Z) :
  0 <= n < 4294967296 -> in_unit_interval (draw n).
Proof.
  intros Hn. unfold in_unit_interval, draw, Qle, Qlt. simpl. lia.
Qed.

(** X1: [_random_integer] returns exactly the integers of 32 bits: whatever
    [Math.random()] gives in [0, 1) the id is in [0, 2^32), and every integer
    of that range is the id of some value of [Math.random()]. *)
Theorem X1_random_integer_covers_uint32 :
  (forall u, in_unit_interval u -> 0 <= _random_integer u < 4294967296)
  /\ (forall n, 0 <= n < 4294967296 ->
        exists u, in_unit_interval u /\ _random_integer u = n).
Proof.
  split; [apply _random_integer_range|].
  intros n Hn. exists (draw n).
  split; [by apply draw_in_unit_interval|apply _random_integer_draw].
Qed.

Lemma X1_random_integer_covers_uint32_witness :
  0 <= _random_integer (4294967295 # 4294967296) < 4294967296
  /\ exists u, in_unit_interval u /\ _random_integer u = 4294967295.
Proof.
  destruct X1_random_integer_covers_uint32 as [Hrange Hcover].
  split.
  - apply Hrange. unfold in_unit_interval, Qle, Qlt. simpl. lia.
  - apply Hcover. lia.
Defined.

(** ** Requests: what can go wrong, and what happens then *)

(** X2: a request is all or nothing. [make_request] ends in one of three
    ways: the handler is not a function and the call throws "Parameter is not
    a function"; the socket is still connecting and the send throws; or the
    call returns, having sent one frame and registered one key. In the first
    two the client is exactly as it was: nothing was sent and, the
    registration coming after the send, no handler was registered. *)
Theorem X2_make_request_all_or_nothing u command params h st :
  let key := to_string (Num (_random_integer u)) in
  let message := JSON_stringify (Obj [("id", Num (_random_integer u));
                                      ("command", command); ("params", params)]) in
  (is_function h = false
   /\ make_request u command params h st = (Thrown Parameter_is_not_a_function, st))
  \/ (is_function h = true /\ readyState st = CONNECTING
      /\ make_request u command params h st = (Thrown InvalidStateError, st))
  \/ (is_function h = true /\ readyState st <> CONNECTING
      /\ exists st',
           make_request u command params h st = (Returned tt, st')
           /\ trace st' = trace st ++ [WsSend message; Registered key h]
           /\ handler_map st' = <[key := h]> (handler_map st)
           /\ readyState st' = readyState st).
Proof.
  intros key message.
  destruct (make_request_outcomes u command params h st)
    as [H|[H|(Hfun & Hready & Hrun)]]; [by left|by right; left|].
  right; right. split; [done|]. split; [done|]. by eexists.
Qed.

Lemma fetch_body_outcomes u command params hf st :
  let key := to_string (Num (_random_integer u)) in
  let message := JSON_stringify (Obj [("id", Num (_random_integer u));
                                      ("command", Str command);
                                      ("params", Arr params)]) in
  (callable hf = false
   /\ fetch_body u command params hf st = (Thrown Parameter_is_not_a_function, st))
  \/ (callable hf = true /\ readyState st = CONNECTING
      /\ fetch_body u command params hf st = (Thrown InvalidStateError, st))
  \/ (callable hf = true /\ readyState st <> CONNECTING
      /\ fetch_body u command params hf st
         = (Returned tt,
            with_trace (with_handler_map st
                          (<[key := fetch_adapter hf]> (handler_map st)))
                       (trace st ++ [WsSend message;
                                     Registered key (fetch_adapter hf)]))).
Proof.
  intros key message. unfold fetch_body, _check_function, bind, callable.
  destruct (is_function (Given hf)) eqn:Hfun; simpl; [|by left].
  right.
  destruct (make_request_outcomes u (Str command) (Arr params) (fetch_adapter hf) st)
    as [[Hno _]|[(_ & Hready & Hrun)|(_ & Hready & Hrun)]]; [done|by left|by right].
Qed.

(** X3: every [fetch_*] method and [make_request] refuse a callback that is
    not a function: the call throws "Parameter is not a function" and the
    client is exactly as it was, with nothing sent and nothing registered. *)
Theorem X3_non_function_callback_rejected u x command params handle_fetch st :
  callable handle_fetch = false ->
  make_request u command params (Given handle_fetch) st
  = (Thrown Parameter_is_not_a_function, st)
  /\ Forall (fun method =>
               snd method st = (Thrown Parameter_is_not_a_function, st))
            (fetch_methods u x handle_fetch).
Proof.
  intros Hfun. split; [by apply make_request_checks|].
  destruct (fetch_methods_check u x handle_fetch st Hfun)
    as (H1 & H2 & H3 & H4 & H5 & H6).
  unfold fetch_methods. by repeat constructor.
Qed.

Lemma X3_non_function_callback_rejected_witness :
  fetch_spend (draw 7) (Str "outpoint") (Data (Str "not a function")) connected
  = (Thrown Parameter_is_not_a_function, connected).
Proof.
  destruct (X3_non_function_callback_rejected (draw 7) (Str "outpoint") Null Null
              (Data (Str "not a function")) connected eq_refl) as [_ Hall].
  unfold fetch_methods in Hall.
  do 5 apply Forall_cons in Hall as [_ Hall].
  apply Forall_cons in Hall as [Hspend _]. exact Hspend.
Defined.

(** ** One-shot commands, from request to response *)

Lemma call_value_trace f args st :
  callable f = true ->
  trace (snd (call_value f args st)) = trace st ++ [Invoked f args]
  /\ handler_map (snd (call_value f args st)) = handler_map st.
Proof.
  intros Hfun.
  by destruct (call_value_cases f args st) as [[Hno _]|[_ [o ->]]]; [congruence|].
Qed.

Lemma forward_object hf props result0 st :
  get_index (default Undefined (assoc "result" props)) 0 = Returned result0 ->
  forward hf (Obj props) st
  = call_value hf [default Undefined (assoc "error" props); result0] st.
Proof. intros H0. unfold forward, bind, lift. simpl. by rewrite H0. Qed.

(** A frame routed to the closure of a [fetch_*] method whose callback is a
    function and whose [result] has a first element. *)
Lemma route_to_fetch_adapter st props key hf result0 :
  correlation_key (Obj props) = Returned key ->
  handler_map st !! key = Some (fetch_adapter hf) ->
  callable hf = true ->
  get_index (default Undefined (assoc "result" props)) 0 = Returned result0 ->
  let frame := Parses (Obj props) in
  trace (snd (_on_message frame st))
  = trace st ++ [FrameObserved frame;
                 Invoked hf [default Undefined (assoc "error" props); result0]]
  /\ handler_map (snd (_on_message frame st)) = handler_map st.
Proof.
  intros Hkey Hslot Hfun H0 frame. unfold frame.
  rewrite (_on_message_key _ _ _ Hkey). unfold slot. rewrite Hslot. simpl.
  unfold bind. rewrite (forward_object hf props result0 _ H0).
  destruct (call_value_trace hf [default Undefined (assoc "error" props); result0]
              (observed st (Parses (Obj props))) Hfun) as [Ht Hm].
  destruct (call_value hf _ _) as [[x|e] s1]; simpl in *;
    by rewrite Ht, <- app_assoc.
Qed.

Lemma fetch_body_round_trip u command params hf st :
  callable hf = true ->
  readyState st <> CONNECTING ->
  round_trip (fetch_body u command params hf) command params u hf st.
Proof.
  intros Hfun Hready. unfold round_trip.
  destruct (fetch_body_outcomes u command params hf st)
    as [[Hno _]|[(_ & Hc & _)|(_ & _ & Hrun)]]; [congruence|done|].
  eexists. split; [exact Hrun|]. split; [done|].
  intros e v rest.
  apply (route_to_fetch_adapter _ [("id", Num (_random_integer u)); ("error", e);
                                   ("result", Arr (v :: rest))]
           (to_string (Num (_random_integer u))) hf v).
  - reflexivity.
  - simpl. apply lookup_insert_eq.
  - done.
  - reflexivity.
Qed.

(** X4: each of the six one-shot commands makes the same round trip. Called
    with a callback that is a function on a socket that is no longer
    connecting, the method returns after sending one frame -- its own command
    name, its parameters and the id it drew -- and registering its closure
    under the id; the response frame with that id then calls the callback
    with exactly the frame's error and the first element of its result, and
    changes nothing in the table. *)
Theorem X4_fetch_methods_round_trip u x handle_fetch st :
  callable handle_fetch = true ->
  readyState st <> CONNECTING ->
  Forall (fun method =>
            round_trip (snd method) (fst (fst method)) (snd (fst method))
                       u handle_fetch st)
         (fetch_methods u x handle_fetch).
Proof.
  intros Hfun Hready. unfold fetch_methods.
  repeat (apply Forall_cons; split;
          [cbn [fst snd];
           exact (fetch_body_round_trip u _ _ handle_fetch st Hfun Hready)|]).
  constructor.
Qed.

Lemma X4_fetch_methods_round_trip_witness :
  let handle_fetch := UserFn "handle_fetch" false in
  round_trip (fetch_transaction (draw 7) (Str "tx") handle_fetch)
             "fetch_transaction" [Str "tx"] (draw 7) handle_fetch connected.
Proof.
  intros handle_fetch.
  pose proof (X4_fetch_methods_round_trip (draw 7) (Str "tx") handle_fetch connected
                eq_refl) as Hall.
  unfold fetch_methods in Hall.
  assert (Hready : readyState connected <> CONNECTING) by discriminate.
  specialize (Hall Hready).
  apply Forall_cons in Hall as [_ Hall].
  apply Forall_cons in Hall as [Htx _]. exact Htx.
Defined.

(** X5: a one-shot entry is not consumed by its response. When the router
    derives a key from a response -- no conversion throws -- and the key is
    bound to the closure of a [fetch_*] method, the entry stays in the
    table, so the same response delivered a second time calls the callback a
    second time with the same arguments. *)
Theorem X5_response_delivered_twice st props key hf result0 :
  correlation_key (Obj props) = Returned key ->
  handler_map st !! key = Some (fetch_adapter hf) ->
  callable hf = true ->
  get_index (default Undefined (assoc "result" props)) 0 = Returned result0 ->
  let frame := Parses (Obj props) in
  let call := Invoked hf [default Undefined (assoc "error" props); result0] in
  trace (steps st [onmessage frame; onmessage frame])
  = trace st ++ [FrameObserved frame; call; FrameObserved frame; call]
  /\ handler_map (steps st [onmessage frame; onmessage frame]) = handler_map st.
Proof.
  intros Hkey Hslot Hfun H0 frame call.
  change (steps st [onmessage frame; onmessage frame])
    with (snd (_on_message frame (snd (_on_message frame st)))).
  destruct (route_to_fetch_adapter st props key hf result0 Hkey Hslot Hfun H0)
    as [Ht1 Hm1].
  fold frame in Ht1, Hm1.
  assert (Hslot1 : handler_map (snd (_on_message frame st)) !! key
                   = Some (fetch_adapter hf)) by by rewrite Hm1.
  destruct (route_to_fetch_adapter _ props key hf result0 Hkey Hslot1 Hfun H0)
    as [Ht2 Hm2].
  fold frame in Ht2, Hm2.
  split.
  - rewrite Ht2, Ht1, <- app_assoc. done.
  - by rewrite Hm2.
Qed.

Lemma X5_response_delivered_twice_witness :
  let hf := UserFn "handle_fetch" false in
  let frame := Parses (Obj [("id", Num 7); ("error", Null);
                            ("result", Arr [Num 12345])]) in
  let st := step connected (call_fetch_last_height (draw 7) hf) in
  trace (steps st [onmessage frame; onmessage frame])
  = trace st ++ [FrameObserved frame; Invoked hf [Null; Num 12345];
                 FrameObserved frame; Invoked hf [Null; Num 12345]].
Proof.
  intros hf frame st.
  exact (proj1 (X5_response_delivered_twice st
                  [("id", Num 7); ("error", Null); ("result", Arr [Num 12345])]
                  "7" hf (Num 12345) eq_refl eq_refl eq_refl eq_refl)).
Defined.

(** ** The table only grows *)

Lemma run_call_outcomes i st :
  is_call i = true ->
  (exists e, run i st = (Thrown e, st)
             /\ (e = Parameter_is_not_a_function
                 \/ (e = InvalidStateError /\ readyState st = CONNECTING)))
  \/ (readyState st <> CONNECTING
      /\ exists n h message,
           run i st
           = (Returned tt,
              with_trace (with_handler_map st (<[to_string (Num n) := h]> (handler_map st)))
                         (trace st ++ [WsSend message; Registered (to_string (Num n)) h]))).
Proof.
  intros Hcall.
  assert (Hreq : forall u command params h,
             (exists e, make_request u command params h st = (Thrown e, st)
                        /\ (e = Parameter_is_not_a_function
                            \/ (e = InvalidStateError /\ readyState st = CONNECTING)))
             \/ (readyState st <> CONNECTING
                 /\ exists n h' message,
                      make_request u command params h st
                      = (Returned tt,
                         with_trace (with_handler_map st
                                       (<[to_string (Num n) := h']> (handler_map st)))
                                    (trace st ++ [WsSend message;
                                                  Registered (to_string (Num n)) h'])))).
  { intros u command params h.
    destruct (make_request_outcomes u command params h st)
      as [[_ ->]|[(_ & Hc & ->)|(_ & Hc & ->)]].
    - left. eexists. split; [done|by left].
    - left. eexists. split; [done|by right].
    - right. split; [done|]. by exists (_random_integer u); do 2 eexists. }
  assert (Hfetch : forall u command params hf,
             (exists e, fetch_body u command params hf st = (Thrown e, st)
                        /\ (e = Parameter_is_not_a_function
                            \/ (e = InvalidStateError /\ readyState st = CONNECTING)))
             \/ (readyState st <> CONNECTING
                 /\ exists n h' message,
                      fetch_body u command params hf st
                      = (Returned tt,
                         with_trace (with_handler_map st
                                       (<[to_string (Num n) := h']> (handler_map st)))
                                    (trace st ++ [WsSend message;
                                                  Registered (to_string (Num n)) h'])))).
  { intros u command params hf.
    destruct (fetch_body_outcomes u command params hf st)
      as [[_ ->]|[(_ & Hc & ->)|(_ & Hc & ->)]].
    - left. eexists. split; [done|by left].
    - left. eexists. split; [done|by right].
    - right. split; [done|]. by exists (_random_integer u); do 2 eexists. }
  destruct i; try discriminate Hcall; cbn [run].
  - apply Hreq.
  - apply (Hfetch _ "fetch_last_height" []).
  - apply (Hfetch _ "fetch_transaction" [tx_hash]).
  - apply (Hfetch _ "fetch_history" [address]).
  - apply Hreq.
  - apply (Hfetch _ "fetch_block_header" [index]).
  - apply (Hfetch _ "fetch_block_transaction_hashes" [index]).
  - apply (Hfetch _ "fetch_spend" [outpoint]).
  - apply Hreq.
Qed.

(** One step changes the table by at most one assignment. *)
Lemma step_table st i :
  handler_map (step st i) = handler_map st
  \/ exists key h, handler_map (step st i) = <[key := h]> (handler_map st).
Proof.
  destruct (is_call i) eqn:Hcall.
  { unfold step.
    destruct (run_call_outcomes i st Hcall)
      as [(e & -> & _)|(_ & n & h & message & ->)]; [by left|].
    right. by exists (to_string (Num n)), h. }
  destruct i; try discriminate Hcall; unfold step; cbn [run].
  - left. unfold websocket_onopen, bind, set_readyState. simpl.
    by destruct (call_value_cases (handle_connect st) [] (with_readyState st OPEN))
      as [[_ ->]|[_ [[x|e] ->]]].
  - by left.
  - by left.
  - destruct (_on_message_cases evt_data st)
      as (o & st' & delta & -> & _ & _ & Hcases). simpl.
    destruct Hcases as [[_ Hm]|[(_ & _ & Hm)|[(f & args & _ & Hm)|H]]];
      try by left.
    destruct H as (? & ? & address & ? & hu & ? & _ & _ & _ & _ & _ & _ & Hm).
    right. by do 2 eexists.
Qed.

Lemma steps_snoc st inputs i : steps (steps st inputs) [i] = steps st (inputs ++ [i]).
Proof. unfold steps. by rewrite foldl_app. Qed.

(** X6: no entry is ever removed. Whatever the client goes through -- calls,
    responses, updates, the socket closing or failing -- a key that is bound
    stays bound (to its callback or to one registered over it), and the table
    never gets smaller. *)
Theorem X6_entries_are_never_removed inputs : forall st key,
  is_Some (handler_map st !! key) ->
  is_Some (handler_map (steps st inputs) !! key)
  /\ (size (handler_map st) <= size (handler_map (steps st inputs)))%nat.
Proof.
  induction inputs as [|i rest IH]; intros st key Hkey; [done|].
  change (steps st (i :: rest)) with (steps (step st i) rest).
  assert (Hstep : forall k, is_Some (handler_map st !! k) ->
                            is_Some (handler_map (step st i) !! k)).
  { intros k Hk.
    destruct (step_table st i) as [->|(key' & h & ->)]; [done|].
    destruct (decide (key' = k)) as [->|Hne].
    - by rewrite lookup_insert_eq.
    - by rewrite lookup_insert_ne. }
  assert (Hsize : (size (handler_map st) <= size (handler_map (step st i)))%nat).
  { destruct (step_table st i) as [->|(key' & h & ->)]; [done|].
    rewrite map_size_insert. destruct (handler_map st !! key'); simpl; lia. }
  destruct (IH (step st i) key (Hstep key Hkey)) as [Hbound Hgrow].
  split; [done|lia].
Qed.

Lemma X6_entries_are_never_removed_witness :
  let hf := UserFn "handle_fetch" false in
  let st := step connected (call_fetch_last_height (draw 7) hf) in
  let response := Parses (Obj [("id", Num 7); ("error", Null);
                               ("result", Arr [Num 12345])]) in
  is_Some (handler_map (steps st [onmessage response; onerror; onclose]) !! "7").
Proof.
  intros hf st response.
  apply (X6_entries_are_never_removed [onmessage response; onerror; onclose] st "7").
  by eexists.
Defined.

(** ** Before the socket opens *)

(** X7: no request can be made before the socket has opened. While the
    socket is connecting every method of the client throws -- "Parameter is
    not a function" when the callback is refused, the socket's
    [InvalidStateError] otherwise -- and leaves the client exactly as it was:
    the handler is not registered, because the registration comes after the
    send. *)
Theorem X7_no_request_before_open i st :
  is_call i = true ->
  readyState st = CONNECTING ->
  exists e,
    run i st = (Thrown e, st)
    /\ step st i = st
    /\ (e = Parameter_is_not_a_function \/ e = InvalidStateError).
Proof.
  intros Hcall Hready.
  destruct (run_call_outcomes i st Hcall) as [(e & Hrun & He)|[Hopen _]];
    [|congruence].
  exists e. split; [done|]. split; [unfold step; by rewrite Hrun|].
  destruct He as [->|[-> _]]; [by left|by right].
Qed.

Lemma X7_no_request_before_open_witness :
  let fresh := GatewayClient "ws://gateway" (UserFn "handle_connect" false) in
  step fresh (call_subscribe (draw 7) (Str "abc") (UserFn "on_ack" false)
                             (UserFn "on_update" false))
  = fresh.
Proof.
  intros fresh.
  destruct (X7_no_request_before_open
              (call_subscribe (draw 7) (Str "abc") (UserFn "on_ack" false)
                              (UserFn "on_update" false)) fresh eq_refl eq_refl)
    as (e & _ & Hstep & _).
  exact Hstep.
Defined.

(** ** Two requests with one id *)

(** X8: [_random_integer] does not look at the table, so two requests can
    draw the same id. The second then takes the slot of the first: a
    response from which the router derives that id as its key is given to
    the handler of the second request, and the table has no trace of the
    first. *)
Theorem X8_id_collision_goes_to_the_last u command1 params1 h1 command2 params2 h2
    response st :
  is_function h1 = true ->
  is_function h2 = true ->
  readyState st <> CONNECTING ->
  correlation_key response = Returned (to_string (Num (_random_integer u))) ->
  exists st1 st2,
    make_request u command1 params1 h1 st = (Returned tt, st1)
    /\ make_request u command2 params2 h2 st1 = (Returned tt, st2)
    /\ handler_map st2 = <[to_string (Num (_random_integer u)) := h2]> (handler_map st)
    /\ _on_message (Parses response) st2
       = (call_handler h2 response ;; ret tt) (observed st2 (Parses response)).
Proof.
  intros Hf1 Hf2 Hready Hkey.
  destruct (make_request_outcomes u command1 params1 h1 st)
    as [[Hno _]|[(_ & Hc & _)|(_ & _ & Hrun1)]]; [congruence|done|].
  set (st1 := with_trace _ _) in Hrun1.
  assert (Hready1 : readyState st1 <> CONNECTING) by done.
  destruct (make_request_outcomes u command2 params2 h2 st1)
    as [[Hno _]|[(_ & Hc & _)|(_ & _ & Hrun2)]]; [congruence|done|].
  set (st2 := with_trace _ _) in Hrun2.
  exists st1, st2. split; [done|]. split; [done|]. split.
  - unfold st2, st1. simpl. apply insert_insert_eq.
  - rewrite (_on_message_key _ _ _ Hkey). unfold slot.
    assert (Hslot2 : handler_map st2 !! to_string (Num (_random_integer u)) = Some h2)
      by (unfold st2; simpl; apply lookup_insert_eq).
    rewrite Hslot2.
    assert (Htruthy : truthy_handler h2 = true) by by destruct h2 as [[]| |].
    by rewrite Htruthy.
Qed.

Lemma X8_id_collision_goes_to_the_last_witness :
  let first := Given (UserFn "first" false) in
  let second := Given (UserFn "second" false) in
  let response := Obj [("id", Num 7); ("error", Null); ("result", Arr [])] in
  exists st2,
    (make_request (draw 7) (Str "a") (Arr []) first ;;
     make_request (draw 7) (Str "b") (Arr []) second) connected = (Returned tt, st2)
    /\ trace (snd (_on_message (Parses response) st2))
       = trace st2 ++ [FrameObserved (Parses response);
                       Invoked (UserFn "second" false) [response]].
Proof.
  intros first second response.
  destruct (X8_id_collision_goes_to_the_last (draw 7) (Str "a") (Arr []) first
              (Str "b") (Arr []) second response connected)
    as (st1 & st2 & Hrun1 & Hrun2 & Hm & Hroute);
    [reflexivity|reflexivity|discriminate|reflexivity|].
  exists st2. split.
  - unfold bind. by rewrite Hrun1.
  - rewrite Hroute. unfold call_handler, call_value, bind, log, observed. simpl.
    by rewrite <- app_assoc.
Defined.

(** ** Updates *)

Lemma correlation_key_update props name topic :
  assoc "name" props = Some name ->
  loose_eq name "update" = Returned true ->
  plus "update." (default Undefined (assoc "address" props)) = Returned topic ->
  correlation_key (Obj props) = Returned topic.
Proof.
  intros Hname Hupdate Htopic. unfold correlation_key, and_then. simpl.
  rewrite Hname. simpl. by rewrite Hupdate.
Qed.

(** A frame routed to a value that the caller gave and that is a function. *)
Lemma route_to_given st response key f :
  correlation_key response = Returned key ->
  handler_map st !! key = Some (Given f) ->
  callable f = true ->
  trace (snd (_on_message (Parses response) st))
  = trace st ++ [FrameObserved (Parses response); Invoked f [response]]
  /\ handler_map (snd (_on_message (Parses response) st)) = handler_map st.
Proof.
  intros Hkey Hslot Hfun.
  rewrite (_on_message_key _ _ _ Hkey). unfold slot. rewrite Hslot.
  assert (Htruthy : truthy_handler (Given f) = true) by by destruct f.
  rewrite Htruthy. unfold call_handler, bind.
  destruct (call_value_trace f [response] (observed st (Parses response)) Hfun)
    as [Ht Hm].
  destruct (call_value f _ _) as [[x|e] s1]; simpl in *;
    by rewrite Ht, <- app_assoc.
Qed.





(** ** Subscriptions, from call to update *)

Lemma subscription_of_make_request u command address name hu st :
  readyState st <> CONNECTING ->
  truthy hu = true ->
  callable hu = true ->
  subscription (make_request u (Str command) (Arr [Str address])
                  (subscribe_adapter (Str address) (UserFn name false) hu))
               u address (UserFn name false) hu st.
Proof.
  intros Hready Htruthy Hfun. unfold subscription.
  set (hf := UserFn name false).
  set (key := to_string (Num (_random_integer u))).
  set (topic := "update." +:+ address).
  destruct (make_request_outcomes u (Str command) (Arr [Str address])
              (subscribe_adapter (Str address) hf hu) st)
    as [[Hno _]|[(_ & Hc & _)|(_ & _ & Hrun)]]; [done|done|].
  eexists. split; [exact Hrun|]. split; [done|].
  set (st1 := with_trace _ _).
  intros e v rest.
  set (ack := Obj [("id", Num (_random_integer u)); ("error", e);
                   ("result", Arr (v :: rest))]).
  assert (Hack : _on_message (Parses ack) st1
                 = (Returned tt,
                    with_trace
                      (with_handler_map st1 (<[topic := Given hu]> (handler_map st1)))
                      (trace st1 ++ [FrameObserved (Parses ack); Invoked hf [e; v];
                                     Registered topic (Given hu)]))).
  { assert (Hkey : correlation_key ack = Returned key) by reflexivity.
    rewrite (_on_message_key _ _ _ Hkey). unfold slot.
    assert (Hslot : handler_map st1 !! key
                    = Some (subscribe_adapter (Str address) hf hu))
      by (unfold st1; simpl; apply lookup_insert_eq).
    rewrite Hslot. simpl. unfold bind, forward, bind. simpl. rewrite Htruthy.
    unfold set_handler, with_trace, with_handler_map. simpl.
    by rewrite <- !app_assoc. }
  rewrite Hack. cbn [snd]. split; [done|]. split; [done|].
  intros props name' Hname Hupdate Haddress.
  apply (route_to_given _ (Obj props) topic hu).
  - apply (correlation_key_update props name' topic Hname Hupdate).
    by rewrite Haddress.
  - simpl. apply lookup_insert_eq.
  - done.
Qed.

(** X11: a subscription from call to update, for [subscribe] and for [renew]
    alike, to an address that is a string. With an acknowledgement callback
    that returns and an update handler that is a function, the call
    registers its closure under the id; the acknowledgement calls the
    acknowledgement callback with the error and the first result and then
    binds the topic key to the update handler -- whatever the error field
    says, and whatever was bound to the topic before, which is how [renew]
    replaces an update handler; after that every update whose address is the
    string calls the new handler with the whole frame. *)
Theorem X11_subscription_round_trip u address on_ack hu st :
  readyState st <> CONNECTING ->
  callable hu = true ->
  subscription (subscribe u (Str address) (UserFn on_ack false) hu)
               u address (UserFn on_ack false) hu st
  /\ subscription (renew u (Str address) (UserFn on_ack false) hu)
                  u address (UserFn on_ack false) hu st.
Proof.
  intros Hready Hfun.
  assert (Htruthy : truthy hu = true) by by destruct hu.
  split; by apply subscription_of_make_request.
Qed.

Lemma X11_subscription_round_trip_witness :
  let old_handler := UserFn "old" false in
  let new_handler := UserFn "new" false in
  let st := steps connected
              [call_subscribe (draw 7) (Str "abc") (UserFn "on_ack" false) old_handler;
               onmessage (Parses (Obj [("id", Num 7); ("error", Null);
                                       ("result", Arr [Bool true])]))] in
  handler_map st !! "update.abc" = Some (Given old_handler)
  /\ subscription (renew (draw 8) (Str "abc") (UserFn "on_ack" false) new_handler)
                  (draw 8) "abc" (UserFn "on_ack" false) new_handler st.
Proof.
  intros old_handler new_handler st. split; [reflexivity|].
  apply (X11_subscription_round_trip (draw 8) "abc" "on_ack" new_handler st);
    [discriminate|reflexivity].
Defined.

(** X12: an acknowledgement that fails subscribes to nothing, and the failure
    leaves the router. When a frame from which the router derives a key is
    routed to the closure of [subscribe] or [renew], and the closure cannot
    complete the call of the acknowledgement callback -- the callback throws,
    or is not a function, or the frame has no [result] to read -- the
    exception propagates out of [_on_message], the update handler is not
    registered and the table is as it was. *)
Theorem X12_failed_acknowledgement st props key address hf hu e s1 :
  let frame := Parses (Obj props) in
  correlation_key (Obj props) = Returned key ->
  handler_map st !! key = Some (subscribe_adapter address hf hu) ->
  forward hf (Obj props) (observed st frame) = (Thrown e, s1) ->
  _on_message frame st = (Thrown e, s1)
  /\ handler_map s1 = handler_map st
  /\ exists delta, trace s1 = trace st ++ delta
                    /\ forall k h, ~ In (Registered k h) delta.
Proof.
  intros frame Hkey Hslot Hforward.
  split; [|split].
  - unfold frame. rewrite (_on_message_key _ _ _ Hkey). unfold slot. rewrite Hslot.
    simpl. unfold bind. fold frame. by rewrite Hforward.
  - pose proof (forward_handler_map hf (Obj props) (observed st frame)) as Hm.
    by rewrite Hforward in Hm.
  - destruct (forward_cases hf (Obj props) (observed st frame))
      as [Hthrown|(o & error & r0 & Hcalled)].
    + rewrite Hthrown in Hforward. injection Hforward as _ <-.
      eexists. split; [reflexivity|].
      intros k h [H|[]]. discriminate H.
    + rewrite Hcalled in Hforward. injection Hforward as _ <-.
      exists [FrameObserved frame; Invoked hf [error; r0]].
      split; [simpl; by rewrite <- app_assoc|].
      intros k h [H|[H|[]]]; discriminate H.
Qed.

Lemma X12_failed_acknowledgement_witness :
  let on_ack := UserFn "on_ack" true in
  let ack := Parses (Obj [("id", Num 7); ("error", Null); ("result", Arr [Bool true])]) in
  let st := step connected
              (call_subscribe (draw 7) (Str "abc") on_ack (UserFn "on_update" false)) in
  fst (_on_message ack st) = Thrown (Raised "on_ack")
  /\ handler_map (snd (_on_message ack st)) !! "update.abc" = None.
Proof.
  intros on_ack ack st.
  destruct (X12_failed_acknowledgement st
              [("id", Num 7); ("error", Null); ("result", Arr [Bool true])] "7"
              (Str "abc") on_ack (UserFn "on_update" false) (Raised "on_ack")
              (with_trace st (trace st ++ [FrameObserved ack;
                                           Invoked on_ack [Null; Bool true]])))
    as (Hrun & Hm & _); [reflexivity..|].
  unfold ack. rewrite Hrun. split; [reflexivity|].
  cbn [snd]. rewrite Hm. reflexivity.
Defined.

(** ** Frames that reach nobody *)

Lemma undefined_is_no_key st :
  reachable st -> slot st "undefined" = None.
Proof.
  intros Hst. unfold slot.
  destruct (handler_map st !! "undefined") as [h|] eqn:Hh; [|done].
  exfalso.
  destruct (reachable_slot_ok st Hst _ h Hh) as [[(n & _ & Hn) _]|[[rest Hrest] _]].
  - destruct (pretty_Z_first n) as (c & Hc & Hnum).
    rewrite <- Hn in Hc. by injection Hc as <-.
  - discriminate Hrest.
Qed.

(** X13: a frame without an id reaches nobody. In every reachable state, a
    frame that has no [id] and whose name compares unequal to "update" -- an
    object without the two fields, or JSON that is no object at all: a
    number, a string, a boolean, an array -- is looked up under the name
    "undefined", which is never bound: the router logs "Handler not found"
    and returns, with no callback called and the table unchanged. *)
Theorem X13_frame_without_id_is_dropped st response name :
  reachable st ->
  get_named response "id" = Returned Undefined ->
  get_named response "name" = Returned name ->
  loose_eq name "update" = Returned false ->
  _on_message (Parses response) st
  = (Returned tt,
     with_trace st (trace st ++ [FrameObserved (Parses response);
                                 ConsoleLog "Handler not found"])).
Proof.
  intros Hst Hid Hname Hupdate.
  assert (Hkey : correlation_key response = Returned "undefined").
  { unfold correlation_key, and_then. by rewrite Hid, Hname, Hupdate. }
  rewrite (_on_message_key _ _ _ Hkey), (undefined_is_no_key st Hst).
  unfold console_log, log, observed, with_trace. simpl. by rewrite <- app_assoc.
Qed.

Lemma X13_frame_without_id_is_dropped_witness :
  let st := step connected (call_fetch_last_height (draw 7) (UserFn "h" false)) in
  Forall (fun response =>
            _on_message (Parses response) st
            = (Returned tt,
               with_trace st (trace st ++ [FrameObserved (Parses response);
                                           ConsoleLog "Handler not found"])))
         [Num 7; Str "7"; Bool true; Arr [Num 7]; Obj [("error", Null)]].
Proof.
  intros st.
  assert (Hst : reachable st).
  { apply reachable_step; [apply connected_reachable|]. by compute. }
  repeat (apply Forall_cons; split;
          [apply (X13_frame_without_id_is_dropped st _ Undefined Hst);
           reflexivity|]).
  constructor.
Defined.

(** X14: the router runs the hook first and sends nothing. For every frame,
    parseable or not, the first thing [_on_message] does is the [on_message]
    hook, once; nothing it does afterwards hands a frame to the transport or
    touches the socket; and when it logs, the message is "Handler not found"
    and that is all it does: it returns normally, with no function called
    and the table unchanged. *)
Theorem X14_router_observes_first_and_never_sends d st :
  exists delta,
    trace (snd (_on_message d st)) = trace st ++ FrameObserved d :: delta
    /\ readyState (snd (_on_message d st)) = readyState st
    /\ (forall e, In e delta ->
          match e with
          | FrameObserved _ | WsSend _ => False
          | _ => True
          end)
    /\ (forall msg, In (ConsoleLog msg) delta ->
          delta = [ConsoleLog "Handler not found"]
          /\ fst (_on_message d st) = Returned tt
          /\ handler_map (snd (_on_message d st)) = handler_map st).
Proof.
  destruct (_on_message_cases d st) as (o & st' & delta & -> & Hready & Ht & Hcases).
  exists delta. cbn [fst snd]. split; [done|]. split; [done|].
  destruct Hcases as [[-> Hm]|[(-> & -> & Hm)|[(f & args & -> & Hm)|H]]].
  - split; [by intros e []|by intros msg []].
  - split.
    + by intros e [<-|[]].
    + done.
  - split.
    + by intros e [<-|[]].
    + intros msg [H|[]]. discriminate H.
  - destruct H as (? & ? & ? & ? & ? & ? & _ & _ & _ & _ & _ & -> & _). split.
    + by intros e [<-|[<-|[]]].
    + intros msg [H|[H|[]]]; discriminate H.
Qed.

Lemma X14_router_observes_first_and_never_sends_witness :
  let frame := Parses (Obj [("id", Num 41)]) in
  fst (_on_message frame connected) = Returned tt
  /\ handler_map (snd (_on_message frame connected)) = handler_map connected.
Proof.
  intros frame.
  destruct (X14_router_observes_first_and_never_sends frame connected)
    as (delta & Ht & _ & _ & Hlog).
  assert (Hdelta : delta = [ConsoleLog "Handler not found"]).
  { change (trace connected ++ [FrameObserved frame; ConsoleLog "Handler not found"]
            = trace connected ++ FrameObserved frame :: delta) in Ht.
    apply app_inv_head in Ht. by injection Ht as <-. }
  destruct (Hlog "Handler not found") as (_ & Hret & Hm).
  - rewrite Hdelta. by left.
  - split; [exact Hret|exact Hm].
Defined.

(** ** Results that are not arrays *)

(** X15: the closures read [response["result"][0]] from whatever [result]
    is. A string result gives the callback its first character, an object its
    property "0", a number or a boolean [undefined]; only a missing or [null]
    result stops the call. *)
Theorem X15_result_need_not_be_an_array handle_fetch props result st :
  assoc "result" props = Some result ->
  let error := default Undefined (assoc "error" props) in
  let passes := fun result0 =>
    forward handle_fetch (Obj props) st = call_value handle_fetch [error; result0] st in
  match result with
  | Undefined | Null => forward handle_fetch (Obj props) st = (Thrown TypeError, st)
  | Bool _ | Num _ => passes Undefined
  | Str EmptyString => passes Undefined
  | Str (String c _) => passes (Str (String c EmptyString))
  | Arr [] => passes Undefined
  | Arr (v :: _) => passes v
  | Obj fields => passes (default Undefined (assoc "0" fields))
  end.
Proof.
  intros Hresult error passes. unfold passes, forward, bind, lift. simpl.
  rewrite Hresult. simpl. fold error.
  by destruct result as [| | | |[|c rest]|[|v rest]|fields].
Qed.

Lemma X15_result_need_not_be_an_array_witness :
  let handle_fetch := UserFn "handle_fetch" false in
  trace (snd (forward handle_fetch (Obj [("error", Null); ("result", Str "abc")])
                      connected))
  = trace connected ++ [Invoked handle_fetch [Null; Str "a"]].
Proof.
  intros handle_fetch.
  pose proof (X15_result_need_not_be_an_array handle_fetch
                [("error", Null); ("result", Str "abc")] (Str "abc") connected eq_refl)
    as Hpass.
  cbv beta zeta iota in Hpass. rewrite Hpass. reflexivity.
Defined.

(** ** The constructor's callback *)

(** X16: the constructor does not check [handle_connect]. When the socket
    opens, a [handle_connect] that is a function is called once, with no
    arguments; one that is not a function makes the open event throw a
    [TypeError]. Either way the socket is open by then, and the table is
    untouched. *)
Theorem X16_handle_connect_is_not_checked st :
  readyState (step st onopen) = OPEN
  /\ handler_map (step st onopen) = handler_map st
  /\ (callable (handle_connect st) = true ->
      trace (step st onopen) = trace st ++ [Invoked (handle_connect st) []])
  /\ (callable (handle_connect st) = false ->
      run onopen st = (Thrown TypeError, with_readyState st OPEN)).
Proof.
  unfold step. cbn [run]. unfold websocket_onopen, bind, set_readyState. simpl.
  destruct (call_value_cases (handle_connect st) [] (with_readyState st OPEN))
    as [[Hno ->]|[Hyes [o ->]]]; simpl.
  - split; [done|]. split; [done|]. split; [congruence|done].
  - destruct o; simpl; (split; [done|]); (split; [done|]);
      (split; [done|congruence]).
Qed.

Lemma X16_handle_connect_is_not_checked_witness :
  let fresh := GatewayClient "ws://gateway" (Data Null) in
  run onopen fresh = (Thrown TypeError, with_readyState fresh OPEN)
  /\ exists st1,
       fetch_last_height (draw 7) (UserFn "h" false) (step fresh onopen)
       = (Returned tt, st1).
Proof.
  intros fresh.
  destruct (X16_handle_connect_is_not_checked fresh) as (Hopen & _ & _ & Hthrown).
  split; [exact (Hthrown eq_refl)|].
  eexists. apply fetch_last_height_returns; [reflexivity|].
  rewrite Hopen. discriminate.
Defined.

(** ** Sends and registrations *)

Lemma prefix_update_numeral (n : Z) : String.prefix "update." (pretty n) = false.
Proof.
  destruct (pretty_Z_first n) as (c & Hc & Hnum).
  destruct (pretty n) as [|c' rest]; [done|]. injection Hc as ->.
  cbn [String.prefix].
  destruct (ascii_dec "u" c) as [<-|_]; [discriminate Hnum|done].
Qed.

Lemma prefix_update_topic (s : string) : String.prefix "update." ("update." +:+ s) = true.
Proof. destruct s; reflexivity. Qed.

Lemma count_app p t1 t2 : count p (t1 ++ t2) = (count p t1 + count p t2)%nat.
Proof. unfold count. by rewrite List.filter_app, length_app. Qed.

(** What one step appends sends as often as it registers a request. *)
Lemma step_counts st i :
  exists delta,
    trace (step st i) = trace st ++ delta
    /\ count is_send delta = count is_request_registration delta.
Proof.
  destruct (is_call i) eqn:Hcall.
  { unfold step.
    destruct (run_call_outcomes i st Hcall)
      as [(e & -> & _)|(_ & n & h & message & ->)].
    - exists []. split; [by rewrite app_nil_r|done].
    - eexists. split; [reflexivity|].
      unfold count. cbn [List.filter is_send is_request_registration to_string].
      by rewrite prefix_update_numeral. }
  destruct i; try discriminate Hcall; unfold step; cbn [run].
  - unfold websocket_onopen, bind, set_readyState. simpl.
    destruct (call_value_cases (handle_connect st) [] (with_readyState st OPEN))
      as [[_ ->]|[_ [[x|e] ->]]].
    + exists []. split; [by rewrite app_nil_r|done].
    + by eexists.
    + by eexists.
  - exists []. split; [by rewrite app_nil_r|done].
  - exists []. split; [by rewrite app_nil_r|done].
  - destruct (_on_message_cases evt_data st)
      as (o & st' & delta & -> & _ & Ht & Hcases). simpl.
    eexists. split; [exact Ht|].
    destruct Hcases as [[-> _]|[(-> & _)|[(f & args & -> & _)|H]]]; try done.
    destruct H as (? & ? & address & ? & hu & ? & _ & _ & _ & _ & _ & -> & _).
    unfold count. cbn [List.filter is_send is_request_registration].
    by rewrite prefix_update_topic.
Qed.

(** X17: sends and request registrations go in pairs. In every reachable
    state the client has handed as many frames to the transport as it has
    registered handlers under request ids: no method sends without
    registering the handler that will take the response, none registers a
    request handler without having sent, and routing a frame does neither. *)
Theorem X17_sends_match_request_registrations st :
  reachable st ->
  count is_send (trace st) = count is_request_registration (trace st).
Proof.
  induction 1 as [|st i _ IH _]; [done|].
  destruct (step_counts st i) as (delta & -> & Hdelta).
  rewrite !count_app. lia.
Qed.

Lemma X17_sends_match_request_registrations_witness :
  let st := steps connected
              [call_fetch_last_height (draw 7) (UserFn "h" false);
               call_subscribe (draw 8) (Str "abc") (UserFn "on_ack" false)
                              (UserFn "on_update" false);
               call_fetch_spend (draw 9) (Str "outpoint") (Data Null);
               onmessage (Parses (Obj [("id", Num 8); ("error", Null);
                                       ("result", Arr [Bool true])]))] in
  count is_send (trace st) = 2%nat
  /\ count is_request_registration (trace st) = 2%nat.
Proof.
  intros st.
  assert (Hst : reachable st).
  { do 4 (apply reachable_step; [|by compute]). apply connected_reachable. }
  pose proof (X17_sends_match_request_registrations st Hst) as Heq.
  split; [reflexivity|]. rewrite <- Heq. reflexivity.
Defined.

(** ** Responses and updates that nobody awaits *)



(** ** Values without a string form *)

(** X19: a frame in which what the router converts has no string form makes
    the router throw. When the name of a frame other than [null] is an
    object with a property [toString] (or an array that holds one), the
    comparison [response.name == "update"] throws; when the name compares
    and it is the address of an update, or the id of any other frame, that
    has no string form, the concatenation or the lookup throws. In each case
    [_on_message] throws a [TypeError] once the hook has run: nothing is
    looked up, called, logged or registered. *)
Theorem X19_unconvertible_frame_throws st response :
  let name := field response "name" in
  let subject := if loosely_equals name "update"
                 then field response "address"
                 else field response "id" in
  converts name = false \/ converts subject = false ->
  correlation_key response = Thrown TypeError
  /\ _on_message (Parses response) st
     = (Thrown TypeError, observed st (Parses response))
  /\ handler_map (snd (_on_message (Parses response) st)) = handler_map st
  /\ trace (snd (_on_message (Parses response) st))
     = trace st ++ [FrameObserved (Parses response)].
Proof.
  intros name subject Hbad.
  assert (Hkey : correlation_key response = Thrown TypeError).
  { unfold subject, name, field in Hbad.
    unfold correlation_key, and_then, plus, loose_eq, ToString.
    destruct (get_named response "id") as [id|e] eqn:Hid;
      [|by rewrite (get_named_thrown _ _ _ Hid)].
    destruct (get_named response "name") as [name'|e] eqn:Hname;
      [|by rewrite (get_named_thrown _ _ _ Hname)].
    destruct (converts name') eqn:Hconverts; [|done].
    destruct Hbad as [|Hbad]; [done|].
    destruct (loosely_equals name' "update").
    - destruct (get_named response "address") as [address|e] eqn:Haddress;
        [|by rewrite (get_named_thrown _ _ _ Haddress)].
      by rewrite Hbad.
    - by rewrite Hbad. }
  split; [done|]. by rewrite (_on_message_no_key st response Hkey).
Qed.

Lemma X19_unconvertible_frame_throws_witness :
  let odd := Obj [("toString", Num 1)] in
  let st := step connected (call_fetch_last_height (draw 7) (UserFn "h" false)) in
  Forall (fun response =>
            _on_message (Parses response) st
            = (Thrown TypeError, observed st (Parses response)))
         [Obj [("id", Num 7); ("name", odd)];
          Obj [("name", Str "update"); ("address", odd)];
          Obj [("id", Arr [Num 7; odd])]].
Proof.
  intros odd st.
  repeat (apply Forall_cons; split;
          [apply (X19_unconvertible_frame_throws st); by (left + right)|]).
  constructor.
Defined.

(** X20: a subscription to an address without a string form is never
    bound. The closure of [subscribe] or [renew] calls the acknowledgement
    callback first; when that returns and there is an update handler to
    install, forming the key ['update.' + address] throws a [TypeError] for
    an address that is an object with a property [toString] (or an array
    that holds one): the exception leaves the closure after the
    acknowledgement callback has run, and the table is as it was. *)
Theorem X20_unconvertible_address_is_never_bound s address hf hu response x s1 :
  truthy hu = true ->
  converts address = false ->
  forward hf response s = (Returned x, s1) ->
  call_handler (subscribe_adapter address hf hu) response s = (Thrown TypeError, s1)
  /\ handler_map s1 = handler_map s
  /\ exists error result0, trace s1 = trace s ++ [Invoked hf [error; result0]].
Proof.
  intros Hhu Haddress Hforward.
  split; [|split].
  - unfold call_handler, bind. rewrite Hforward, Hhu.
    unfold lift, plus, ToString. by rewrite Haddress.
  - pose proof (forward_handler_map hf response s) as Hmap.
    by rewrite Hforward in Hmap.
  - destruct (forward_cases hf response s) as [Hthrown|(o & error & r0 & Hcalled)].
    + by rewrite Hthrown in Hforward.
    + rewrite Hcalled in Hforward. injection Hforward as _ <-.
      by exists error, r0.
Qed.

Lemma X20_unconvertible_address_is_never_bound_witness :
  let odd := Obj [("toString", Num 1)] in
  let on_ack := UserFn "on_ack" false in
  let ack := Parses (Obj [("id", Num 7); ("error", Null); ("result", Arr [Bool true])]) in
  let st := step connected (call_subscribe (draw 7) odd on_ack (UserFn "on_update" false)) in
  call_handler (subscribe_adapter odd on_ack (UserFn "on_update" false))
               (Obj [("id", Num 7); ("error", Null); ("result", Arr [Bool true])])
               (observed st ack)
  = (Thrown TypeError,
     with_trace st (trace st ++ [FrameObserved ack; Invoked on_ack [Null; Bool true]])).
Proof.
  intros odd on_ack ack st.
  apply (X20_unconvertible_address_is_never_bound (observed st ack) odd on_ack
           (UserFn "on_update" false) _ Undefined); reflexivity.
Defined.
